(** * A static file server with remote fallback proxy (server.ps1)

    Shallow embedding of the PowerShell development server: the helper
    functions [Get-ContentType], [Send-Text], [Send-LocalFile],
    [Proxy-RemoteRequest], [Write-Log] and the accept loop of
    [Start-StaticServer].  Hyphens of the cmdlet names are written as
    underscores.

    Strings are [string] over 8-bit characters, byte arrays are
    [list byte], integers are [Z].  The .NET and PowerShell primitives the
    script calls are either written out (trimming, case folding, prefix
    test, extension scan, the two [switch] statements) or, where they
    depend on the operating system, the file system or the network, taken
    from a [Platform] and a [World] record.

    What the environment may do: normalizing a path, reading a file,
    the outbound GET, starting the listener and accepting a connection
    return or throw; [Test-Path] answers true or false; a write to the
    output stream of a response throws when the stream is closed or the
    client has gone, and takes every byte otherwise.  A request is the
    pair of [RawUrl] and [Url.AbsolutePath] the listener hands over.

    [new_context], [accept_loop] and [Start_StaticServer] describe the
    server for clients that stay connected and a listener that starts;
    [context], [Listener.accept_loop] and [Listener.Start_StaticServer]
    describe it without these conditions. *)

From Stdlib Require Import String Ascii List ZArith Bool DecimalString.
From Stdlib.Strings Require Import Byte.
Import ListNotations.
Local Open Scope string_scope.
Local Open Scope list_scope.

(* ================================================================== *)
(** ** Characters and strings *)

Module Str.

Definition is_upper (c : ascii) : bool :=
  (65 <=? nat_of_ascii c)%nat && (nat_of_ascii c <=? 90)%nat.

Definition is_lower (c : ascii) : bool :=
  (97 <=? nat_of_ascii c)%nat && (nat_of_ascii c <=? 122)%nat.

Definition to_lower (c : ascii) : ascii :=
  if is_upper c then ascii_of_nat (nat_of_ascii c + 32) else c.

Definition to_upper (c : ascii) : ascii :=
  if is_lower c then ascii_of_nat (nat_of_ascii c - 32) else c.

(** [String.ToLowerInvariant()]. *)
Fixpoint ToLowerInvariant (s : string) : string :=
  match s with
  | EmptyString => EmptyString
  | String c r => String (to_lower c) (ToLowerInvariant r)
  end.

(** Character comparison of [StringComparison.OrdinalIgnoreCase]: the
    upper-cased code units are compared. *)
Definition char_eq_ci (a b : ascii) : bool :=
  Ascii.eqb (to_upper a) (to_upper b).

(** Case-insensitive equality: PowerShell's [-eq] on strings, the
    clause test of [switch] and a literal under [switch -Regex]. *)
Fixpoint eq_ci (a b : string) : bool :=
  match a, b with
  | EmptyString, EmptyString => true
  | String x a', String y b' => char_eq_ci x y && eq_ci a' b'
  | _, _ => false
  end.

(** [s.StartsWith(prefix, StringComparison.OrdinalIgnoreCase)]. *)
Fixpoint StartsWith_OrdinalIgnoreCase (s prefix : string) : bool :=
  match prefix, s with
  | EmptyString, _ => true
  | String p prefix', String c s' =>
      char_eq_ci c p && StartsWith_OrdinalIgnoreCase s' prefix'
  | String _ _, EmptyString => false
  end.

(** [s.TrimStart(c)]: every leading occurrence of [c] is removed. *)
Fixpoint TrimStart (c : ascii) (s : string) : string :=
  match s with
  | EmptyString => EmptyString
  | String a r => if Ascii.eqb a c then TrimStart c r else s
  end.

(** [s.TrimEnd(c)]: every trailing occurrence of [c] is removed. *)
Fixpoint TrimEnd (c : ascii) (s : string) : string :=
  match s with
  | EmptyString => EmptyString
  | String a r =>
      match TrimEnd c r with
      | EmptyString => if Ascii.eqb a c then EmptyString else String a EmptyString
      | r' => String a r'
      end
  end.

(** [n] copies of the character [c]. *)
Fixpoint replicate (n : nat) (c : ascii) : string :=
  match n with
  | O => EmptyString
  | S k => String c (replicate k c)
  end.

Fixpoint contains (c : ascii) (s : string) : bool :=
  match s with
  | EmptyString => false
  | String a r => Ascii.eqb a c || contains c r
  end.

Definition first_is (c : ascii) (s : string) : bool :=
  match s with
  | String a _ => Ascii.eqb a c
  | EmptyString => false
  end.

(** [$values -join ", "]. *)
Definition join (sep : string) (values : list string) : string :=
  String.concat sep values.

(** [System.Text.Encoding.UTF8.GetBytes] on the 8-bit strings of this
    development. *)
Definition UTF8_GetBytes (s : string) : list byte := list_byte_of_string s.

Definition LF_char : ascii := ascii_of_nat 10.

Definition LF : string := String LF_char EmptyString.

(** An [int] interpolated into a string. *)
Definition of_int (n : Z) : string :=
  DecimalString.NilZero.string_of_int (Z.to_int n).

(** One alternative [^lit$] of a pattern under [switch -Regex]: the
    match ignores case, and [$] also matches before a final newline. *)
Definition anchored_match (lit name : string) : bool :=
  eq_ci name lit || eq_ci name (lit ++ LF).

(** A pattern [^a$|^b$|...] given by its alternatives. *)
Definition regex_alternatives (lits : list string) (name : string) : bool :=
  existsb (fun lit => anchored_match lit name) lits.

End Str.

(* ================================================================== *)
(** ** Results of fallible calls *)

(** A .NET call either returns or throws; the exception is kept as its
    message. *)
Inductive Outcome (A : Type) : Type :=
| Returned (a : A)
| Thrown (message : string).

Arguments Returned {A} a.
Arguments Thrown {A} message.

(* ================================================================== *)
(** ** Platform and world *)

(** The answer of the remote origin as [HttpClient] hands it over:
    [RemoteStatusCode] is [StatusCode], [RemoteHeaders] are the response
    headers ([$response.Headers]), [ContentHeaders] the content headers
    ([$response.Content.Headers]), each name with its values,
    [MediaType] is [Content.Headers.ContentType] (absent when the origin
    sent none) and [Content] the body after automatic decompression. *)
Record HttpResponseMessage := {
  RemoteStatusCode : Z;
  RemoteHeaders : list (string * list string);
  ContentHeaders : list (string * list string);
  MediaType : option string;
  Content : list byte
}.

(** Operating-system dependent path and URI primitives. *)
Record Platform := {
  (** [PathInternal.IsDirectorySeparator] *)
  IsDirectorySeparator : ascii -> bool;
  (** [Join-Path parent child] *)
  Join_Path : string -> string -> string;
  (** [System.IO.Path.GetFullPath] *)
  GetFullPath : string -> Outcome string;
  (** [([System.Uri]$url).AbsolutePath]; the cast follows a successful
      [GetAsync] of the same string. *)
  Uri_AbsolutePath : string -> string
}.

(** The file system and the network at the time of one call. *)
Record World := {
  (** [Test-Path $p] *)
  Test_Path : string -> bool;
  (** [Test-Path $p -PathType Leaf] *)
  Test_Path_Leaf : string -> bool;
  (** [System.IO.File.ReadAllBytes] *)
  ReadAllBytes : string -> Outcome (list byte);
  (** [$client.GetAsync($url)] followed by [ReadAsByteArrayAsync] *)
  GetAsync : string -> Outcome HttpResponseMessage;
  (** [$listener.Prefixes.Add($prefix)] and [$listener.Start()] *)
  Listen : string -> Outcome unit
}.

(* ================================================================== *)
(** ** Get-ContentType *)

Section ContentType.

Variable P : Platform.

(** The backward scan of [Path.GetExtension]: [rev_chars] are the
    characters still to visit, last one first, [suffix] the ones
    already passed. *)
Fixpoint scan_extension (rev_chars suffix : list ascii) : list ascii :=
  match rev_chars with
  | [] => []
  | ch :: more =>
      if Ascii.eqb ch "."%char then
        match suffix with
        | [] => []
        | _ :: _ => ch :: suffix
        end
      else if IsDirectorySeparator P ch then []
      else scan_extension more (ch :: suffix)
  end.

Definition GetExtension (path : string) : string :=
  string_of_list_ascii (scan_extension (rev (list_ascii_of_string path)) []).

(** The [switch ($ext)] of [Get-ContentType]; clauses are tried in
    order and the first match returns. *)
Definition switch_ext (ext : string) : string :=
  if Str.eq_ci ext ".html" then "text/html; charset=utf-8"
  else if Str.eq_ci ext ".htm" then "text/html; charset=utf-8"
  else if Str.eq_ci ext ".js" then "text/javascript; charset=utf-8"
  else if Str.eq_ci ext ".mjs" then "text/javascript; charset=utf-8"
  else if Str.eq_ci ext ".css" then "text/css; charset=utf-8"
  else if Str.eq_ci ext ".json" then "application/json; charset=utf-8"
  else if Str.eq_ci ext ".svg" then "image/svg+xml"
  else if Str.eq_ci ext ".png" then "image/png"
  else if Str.eq_ci ext ".jpg" then "image/jpeg"
  else if Str.eq_ci ext ".jpeg" then "image/jpeg"
  else if Str.eq_ci ext ".gif" then "image/gif"
  else if Str.eq_ci ext ".ico" then "image/x-icon"
  else if Str.eq_ci ext ".webp" then "image/webp"
  else if Str.eq_ci ext ".woff" then "font/woff"
  else if Str.eq_ci ext ".woff2" then "font/woff2"
  else "application/octet-stream".

(** [Get-ContentType].  [Path] is a mandatory [string] parameter: the
    cmdlet binding refuses the empty string before the body runs, so
    this is the function on the paths it accepts, the non-empty ones. *)
Definition Get_ContentType (Path : string) : string :=
  let ext := Str.ToLowerInvariant (GetExtension Path) in
  switch_ext ext.

End ContentType.

(** The extension table the [switch] encodes, as data. *)
Definition MimeTable : list (string * string) :=
  [ (".html", "text/html; charset=utf-8");
    (".htm", "text/html; charset=utf-8");
    (".js", "text/javascript; charset=utf-8");
    (".mjs", "text/javascript; charset=utf-8");
    (".css", "text/css; charset=utf-8");
    (".json", "application/json; charset=utf-8");
    (".svg", "image/svg+xml");
    (".png", "image/png");
    (".jpg", "image/jpeg");
    (".jpeg", "image/jpeg");
    (".gif", "image/gif");
    (".ico", "image/x-icon");
    (".webp", "image/webp");
    (".woff", "font/woff");
    (".woff2", "font/woff2") ].

Definition GenericBinary : string := "application/octet-stream".

(** Lookup in an extension table with a default for unlisted keys. *)
Fixpoint table_lookup (table : list (string * string)) (default ext : string) : string :=
  match table with
  | [] => default
  | (k, v) :: rest => if String.eqb ext k then v else table_lookup rest default ext
  end.

(* ================================================================== *)
(** ** The listener response, the console and the script monad *)

(** [HttpListenerResponse] as the script uses it: the properties it
    assigns, the header collection, and the output stream with the bytes
    written so far, whether it has been closed, and whether the client
    of the connection is still there to take what is written. *)
Record HttpListenerResponse := {
  StatusCode : Z;
  ContentType : option string;
  Headers : list (string * string);
  ContentLength64 : Z;
  OutputStream : list byte;
  Closed : bool;
  ClientConnected : bool
}.

(** The response of a context just returned by [GetContext] for a
    client that stays connected. *)
Definition new_response : HttpListenerResponse :=
  {| StatusCode := 200; ContentType := None; Headers := [];
     ContentLength64 := 0; OutputStream := []; Closed := false;
     ClientConnected := true |}.

Inductive Level := Info | Warn | Error.

(** What one call leaves behind outside the response: console lines and
    the accesses to the file system and to the remote origin, in order. *)
Inductive Event :=
| Logged (level : Level) (message : string)
| HostLine (line : string)
| LeafTested (path : string)
| FileRead (path : string)
| RemoteGet (url : string).

Record State := {
  Response : HttpListenerResponse;
  Trace : list Event
}.

Definition new_context : State := {| Response := new_response; Trace := [] |}.

(** A script fragment: it runs from a state and returns or throws. *)
Definition Script (A : Type) : Type := State -> Outcome A * State.

Definition ret {A : Type} (a : A) : Script A :=
  fun s => (Returned a, s).

Definition bind {A B : Type} (m : Script A) (k : A -> Script B) : Script B :=
  fun s =>
    match m s with
    | (Returned a, s') => k a s'
    | (Thrown e, s') => (Thrown e, s')
    end.

Notation "x <- m ;; k" := (bind m (fun x => k))
  (at level 61, m at next level, right associativity).
Notation "m ;; k" := (bind m (fun _ => k))
  (at level 61, right associativity).

(** [try { body } catch { handler }]; the handler receives
    [$_.Exception.Message]. *)
Definition try_catch {A : Type} (body : Script A) (handler : string -> Script A) : Script A :=
  fun s =>
    match body s with
    | (Returned a, s') => (Returned a, s')
    | (Thrown e, s') => handler e s'
    end.

(** [try { body } finally { final }]: [final] runs however [body] ends;
    an exception of [final] replaces the outcome of [body]. *)
Definition try_finally {A : Type} (body : Script A) (final : Script unit) : Script A :=
  fun s =>
    match body s with
    | (r, s') =>
        match final s' with
        | (Returned _, s'') => (r, s'')
        | (Thrown e, s'') => (Thrown e, s'')
        end
    end.

Definition try_catch_finally {A : Type}
  (body : Script A) (handler : string -> Script A) (final : Script unit) : Script A :=
  try_finally (try_catch body handler) final.

(** [foreach ($h in $items) { body }]. *)
Fixpoint foreach {A : Type} (items : list A) (body : A -> Script unit) : Script unit :=
  match items with
  | [] => ret tt
  | h :: rest => body h ;; foreach rest body
  end.

Definition emit (ev : Event) : Script unit :=
  fun s => (Returned tt, {| Response := Response s; Trace := Trace s ++ [ev] |}).

Definition update (f : HttpListenerResponse -> HttpListenerResponse) : Script unit :=
  fun s => (Returned tt, {| Response := f (Response s); Trace := Trace s |}).

(** [$resp.StatusCode = v] *)
Definition set_StatusCode (v : Z) : Script unit :=
  update (fun r =>
    {| StatusCode := v; ContentType := ContentType r; Headers := Headers r;
       ContentLength64 := ContentLength64 r; OutputStream := OutputStream r;
       Closed := Closed r; ClientConnected := ClientConnected r |}).

(** [$resp.ContentType = v] *)
Definition set_ContentType (v : string) : Script unit :=
  update (fun r =>
    {| StatusCode := StatusCode r; ContentType := Some v; Headers := Headers r;
       ContentLength64 := ContentLength64 r; OutputStream := OutputStream r;
       Closed := Closed r; ClientConnected := ClientConnected r |}).

(** [$headers[$name] = $value] on a name-value collection whose keys
    ignore case: an existing entry gets the new value, otherwise the
    entry is added at the end. *)
Fixpoint assign_header (name value : string) (hs : list (string * string))
  : list (string * string) :=
  match hs with
  | [] => [(name, value)]
  | (k, v) :: rest =>
      if Str.eq_ci k name then (k, value) :: rest
      else (k, v) :: assign_header name value rest
  end.

(** [$resp.Headers[$name] = $value] *)
Definition set_Header (name value : string) : Script unit :=
  update (fun r =>
    {| StatusCode := StatusCode r; ContentType := ContentType r;
       Headers := assign_header name value (Headers r);
       ContentLength64 := ContentLength64 r; OutputStream := OutputStream r;
       Closed := Closed r; ClientConnected := ClientConnected r |}).

(** [$resp.ContentLength64 = v] *)
Definition set_ContentLength64 (v : Z) : Script unit :=
  update (fun r =>
    {| StatusCode := StatusCode r; ContentType := ContentType r; Headers := Headers r;
       ContentLength64 := v; OutputStream := OutputStream r; Closed := Closed r; ClientConnected := ClientConnected r |}).

Definition ObjectDisposed : string := "Cannot access a closed Stream.".

Definition ClientGone : string := "The specified network name is no longer available.".

(** [$resp.OutputStream.Write($bytes, 0, $bytes.Length)]: a closed
    stream refuses the write, and so does the stream of a client that
    has gone (the listener's [IgnoreWriteExceptions] is not set);
    otherwise every byte is taken. *)
Definition OutputStream_Write (bytes : list byte) : Script unit :=
  fun s =>
    if Closed (Response s) then (Thrown ObjectDisposed, s)
    else if negb (ClientConnected (Response s)) then (Thrown ClientGone, s)
    else update (fun r =>
      {| StatusCode := StatusCode r; ContentType := ContentType r; Headers := Headers r;
         ContentLength64 := ContentLength64 r; OutputStream := OutputStream r ++ bytes;
         Closed := Closed r; ClientConnected := ClientConnected r |}) s.

(** [$resp.OutputStream.Flush()] *)
Definition OutputStream_Flush : Script unit := ret tt.

(** [$resp.OutputStream.Close()]; closing twice is allowed. *)
Definition OutputStream_Close : Script unit :=
  update (fun r =>
    {| StatusCode := StatusCode r; ContentType := ContentType r; Headers := Headers r;
       ContentLength64 := ContentLength64 r; OutputStream := OutputStream r;
       Closed := true; ClientConnected := ClientConnected r |}).

(** [$bytes.LongLength] *)
Definition LongLength (bytes : list byte) : Z := Z.of_nat (length bytes).

(** Calls into the world, each leaving its event. *)
Definition call_ReadAllBytes (w : World) (path : string) : Script (list byte) :=
  fun s => (ReadAllBytes w path, {| Response := Response s; Trace := Trace s ++ [FileRead path] |}).

Definition call_GetAsync (w : World) (url : string) : Script HttpResponseMessage :=
  fun s => (GetAsync w url, {| Response := Response s; Trace := Trace s ++ [RemoteGet url] |}).

Definition call_Test_Path_Leaf (w : World) (path : string) : Script bool :=
  fun s => (Returned (Test_Path_Leaf w path),
            {| Response := Response s; Trace := Trace s ++ [LeafTested path] |}).

(** A pure platform call that may throw. *)
Definition call {A : Type} (r : Outcome A) : Script A := fun s => (r, s).

(* ================================================================== *)
(** ** Write-Log and Send-Text *)

(** The line carries a clock reading in the script; the event keeps
    level and message. *)
Definition Write_Log (level : Level) (Message : string) : Script unit :=
  emit (Logged level Message).

Definition Send_Text (StatusCode : Z) (Text : string) : Script unit :=
  let bytes := Str.UTF8_GetBytes Text in
  set_StatusCode StatusCode ;;
  set_ContentType "text/plain; charset=utf-8" ;;
  set_ContentLength64 (LongLength bytes) ;;
  OutputStream_Write bytes ;;
  OutputStream_Flush ;;
  OutputStream_Close.

(* ================================================================== *)
(** ** Send-LocalFile, Proxy-RemoteRequest and the dispatch *)

(** The alternatives of the two patterns of [Proxy-RemoteRequest]. *)
Definition TransportBlocklist : list string :=
  ["Transfer-Encoding"; "Connection"; "Keep-Alive"; "Content-Encoding";
   "Content-Length"; "Set-Cookie"].

Definition ContentBlocklist : list string :=
  ["Content-Type"; "Content-Length"; "Content-Encoding"].

Record HttpListenerRequest := {
  RawUrl : string;
  AbsolutePath : string
}.

Section Server.

Variable P : Platform.

(** [Send-LocalFile]: [try] read and write, [catch] log and answer
    500, [finally] close the output stream. *)
Definition Send_LocalFile (w : World) (FilePath : string) : Script unit :=
  try_catch_finally
    (bytes <- call_ReadAllBytes w FilePath ;;
     set_StatusCode 200 ;;
     set_ContentType (Get_ContentType P FilePath) ;;
     set_Header "Cache-Control" "no-cache, no-store, must-revalidate" ;;
     set_Header "Pragma" "no-cache" ;;
     set_Header "Expires" "0" ;;
     set_ContentLength64 (LongLength bytes) ;;
     OutputStream_Write bytes ;;
     OutputStream_Flush)
    (fun message =>
       Write_Log Error ("Send-LocalFile error: " ++ message) ;;
       Send_Text 500 "Internal Server Error")
    OutputStream_Close.

(** The body of one [foreach] over a header set: a name matching the
    pattern is skipped, any other is assigned to the local response. *)
Definition relay_header (blocklist : list string) (h : string * list string) : Script unit :=
  let name := fst h in
  let value := Str.join ", " (snd h) in
  if Str.regex_alternatives blocklist name then ret tt
  else set_Header name value.

(** [Proxy-RemoteRequest].  Setting up the client (automatic
    decompression, the 30 second timeout, user agent and accept header)
    is part of what [GetAsync] of the world stands for. *)
Definition Proxy_RemoteRequest (w : World) (RemoteUrl : string) : Script unit :=
  try_catch_finally
    (response <- call_GetAsync w RemoteUrl ;;
     let content := Content response in
     set_StatusCode (RemoteStatusCode response) ;;
     match MediaType response with
     | Some contentType => set_ContentType contentType
     | None => set_ContentType (Get_ContentType P (Uri_AbsolutePath P RemoteUrl))
     end ;;
     foreach (RemoteHeaders response) (relay_header TransportBlocklist) ;;
     foreach (ContentHeaders response) (relay_header ContentBlocklist) ;;
     set_ContentLength64 (LongLength content) ;;
     OutputStream_Write content ;;
     OutputStream_Flush)
    (fun message =>
       Write_Log Error ("Proxy error: " ++ RemoteUrl ++ " => " ++ message) ;;
       Send_Text 502 "Bad Gateway")
    OutputStream_Close.

(** The mapping of the URL path to a local path. *)
Definition localPath (rootFull absPath : string) : string :=
  if Str.eq_ci absPath "/" then Join_Path P rootFull "index.html"
  else
    let rel := Str.TrimStart "/"%char absPath in
    Join_Path P rootFull rel.

(** [$remoteUrl = ($RemoteOrigin.TrimEnd('/')) + $rawUrl] *)
Definition remoteUrl (RemoteOrigin rawUrl : string) : string :=
  Str.TrimEnd "/"%char RemoteOrigin ++ rawUrl.

(** The inner [try] block of the accept loop. *)
Definition Dispatch (w : World) (rootFull RemoteOrigin : string)
  (req : HttpListenerRequest) : Script unit :=
  let rawUrl := RawUrl req in
  let absPath := AbsolutePath req in
  localFull <- call (GetFullPath P (localPath rootFull absPath)) ;;
  if negb (Str.StartsWith_OrdinalIgnoreCase localFull rootFull) then
    Send_Text 403 "Forbidden"
  else
    leaf <- call_Test_Path_Leaf w localFull ;;
    if leaf then Send_LocalFile w localFull
    else Proxy_RemoteRequest w (remoteUrl RemoteOrigin rawUrl).

(** One iteration of [while ($true)] after [GetContext]. *)
Definition Handle (w : World) (rootFull RemoteOrigin : string)
  (req : HttpListenerRequest) : Script unit :=
  try_catch (Dispatch w rootFull RemoteOrigin req)
            (fun _ => Send_Text 500 "Internal Server Error").

(** How a run of the server stands once the given connections have been
    handled. *)
Inductive Ending :=
| Waiting
| Terminated (message : string).

Record Run := {
  Console : list Event;
  Exchanges : list State;
  Ended : Ending
}.

(** [while ($true) { $context = $listener.GetContext(); ... }] over the
    connections that arrive, each with the world as it is then, when
    [GetContext] always returns and every client stays connected
    ([Listener.accept_loop] is the loop without these two conditions).
    An exception leaving an iteration leaves the loop. *)
Fixpoint accept_loop (rootFull RemoteOrigin : string)
  (incoming : list (World * HttpListenerRequest)) : list State * Ending :=
  match incoming with
  | [] => ([], Waiting)
  | (w, req) :: later =>
      match Handle w rootFull RemoteOrigin req new_context with
      | (Returned _, s) =>
          let (served, ending) := accept_loop rootFull RemoteOrigin later in
          (s :: served, ending)
      | (Thrown e, s) => ([s], Terminated e)
      end
  end.

(** [Start-StaticServer] with the world [w0] at startup, for a listener
    that starts and clients that stay connected
    ([Listener.Start_StaticServer] is the start without these two
    conditions).  [Console] holds the lines the start itself writes; the
    lines written while a request is handled are in the [Trace] of its
    exchange. *)
Definition Start_StaticServer (w0 : World) (Port : Z) (Root RemoteOrigin : string)
  (incoming : list (World * HttpListenerRequest)) : Run :=
  match GetFullPath P Root with
  | Thrown e => {| Console := []; Exchanges := []; Ended := Terminated e |}
  | Returned rootFull =>
      if negb (Test_Path w0 rootFull) then
        {| Console := []; Exchanges := [];
           Ended := Terminated ("Root directory not found: " ++ rootFull) |}
      else
        let prefix := ("http://localhost:" ++ Str.of_int Port ++ "/")%string in
        let (served, ending) := accept_loop rootFull RemoteOrigin incoming in
        {| Console := [ Logged Info ("Server listening at " ++ prefix);
                        HostLine prefix;
                        Logged Info ("Root: " ++ rootFull);
                        Logged Info ("Remote origin (fallback proxy): " ++ RemoteOrigin) ];
           Exchanges := served;
           Ended := ending |}
  end.

(** The entry block: an exception of the server is logged and thrown
    again. *)
Definition Entry (w0 : World) (Port : Z) (Root RemoteOrigin : string)
  (incoming : list (World * HttpListenerRequest)) : Run :=
  let run := Start_StaticServer w0 Port Root RemoteOrigin incoming in
  match Ended run with
  | Waiting => run
  | Terminated e =>
      {| Console := Console run ++ [Logged Error e];
         Exchanges := Exchanges run;
         Ended := Terminated e |}
  end.

End Server.

(* ================================================================== *)
(** ** A concrete platform and worlds to run the server on *)

(** A platform in POSIX style: [/] separates directories, full paths
    are obtained by dropping empty and [.] segments and resolving [..],
    and a URI is split at its authority and query. *)
Module Posix.

Definition slash : ascii := "/"%char.

Definition is_separator (c : ascii) : bool := Ascii.eqb c slash.

Fixpoint last_is (c : ascii) (s : string) : bool :=
  match s with
  | EmptyString => false
  | String a EmptyString => Ascii.eqb a c
  | String _ r => last_is c r
  end.

Definition tail (s : string) : string :=
  match s with
  | EmptyString => EmptyString
  | String _ r => r
  end.

Definition join_path (parent child : string) : string :=
  if String.eqb child EmptyString then
    if last_is slash parent then parent else parent ++ "/"
  else if last_is slash parent then
    if Str.first_is slash child then parent ++ tail child else parent ++ child
  else if Str.first_is slash child then parent ++ child
  else parent ++ "/" ++ child.

Fixpoint segments (s : string) : list string :=
  match s with
  | EmptyString => [EmptyString]
  | String a r =>
      if is_separator a then EmptyString :: segments r
      else
        match segments r with
        | seg :: more => String a seg :: more
        | [] => [String a EmptyString]
        end
  end.

Definition step (stack : list string) (seg : string) : list string :=
  if String.eqb seg EmptyString then stack
  else if String.eqb seg "." then stack
  else if String.eqb seg ".." then List.tl stack
  else seg :: stack.

Definition collapse (path : string) : list string :=
  rev (fold_left step (segments path) []).

Definition cwd : string := "/work".

Definition NUL : ascii := ascii_of_nat 0.

Definition full_path (path : string) : Outcome string :=
  if String.eqb path EmptyString then Thrown "The path is empty."
  else if Str.contains NUL path then Thrown "Null character in path."
  else
    let rooted := if Str.first_is slash path then path else (cwd ++ "/" ++ path)%string in
    Returned ("/" ++ String.concat "/" (collapse rooted))%string.

Fixpoint after_scheme (s : string) : string :=
  match s with
  | EmptyString => EmptyString
  | String a r =>
      if Ascii.eqb a ":"%char && Str.first_is slash r && Str.first_is slash (tail r)
      then tail (tail r)
      else after_scheme r
  end.

Fixpoint from_slash (s : string) : string :=
  match s with
  | EmptyString => EmptyString
  | String a r => if is_separator a then s else from_slash r
  end.

Fixpoint until_query (s : string) : string :=
  match s with
  | EmptyString => EmptyString
  | String a r =>
      if Ascii.eqb a "?"%char || Ascii.eqb a "#"%char then EmptyString
      else String a (until_query r)
  end.

Definition absolute_path (url : string) : string :=
  match until_query (from_slash (after_scheme url)) with
  | EmptyString => "/"
  | p => p
  end.

Definition platform : Platform :=
  {| IsDirectorySeparator := is_separator;
     Join_Path := join_path;
     GetFullPath := full_path;
     Uri_AbsolutePath := absolute_path |}.

Fixpoint assoc {A : Type} (key : string) (entries : list (string * A)) : option A :=
  match entries with
  | [] => None
  | (k, v) :: rest => if String.eqb key k then Some v else assoc key rest
  end.

(** A world given by its directories, its files (with what reading each
    one yields) and the answers of the remote origin. *)
Definition world (dirs : list string) (files : list (string * Outcome (list byte)))
  (remote : list (string * Outcome HttpResponseMessage)) : World :=
  {| Test_Path := fun p =>
       existsb (String.eqb p) dirs || existsb (fun f => String.eqb p (fst f)) files;
     Test_Path_Leaf := fun p => existsb (fun f => String.eqb p (fst f)) files;
     ReadAllBytes := fun p =>
       match assoc p files with
       | Some r => r
       | None => Thrown "Could not find file."
       end;
     GetAsync := fun url =>
       match assoc url remote with
       | Some r => r
       | None => Thrown "No such host is known."
       end;
     Listen := fun _ => Returned tt |}.

Definition html_A : list byte := Str.UTF8_GetBytes "<html>A</html>".

Definition not_found : HttpResponseMessage :=
  {| RemoteStatusCode := 404;
     RemoteHeaders := [("Server", ["nginx"]); ("Connection", ["keep-alive"]);
                       ("Set-Cookie", ["a=1"; "b=2"]); ("Cache-Control", ["max-age=60"; "public"])];
     ContentHeaders := [("Content-Type", ["text/plain"]); ("Content-Length", ["9"]);
                        ("Content-Encoding", ["gzip"]); ("Content-Language", ["en"])];
     MediaType := Some "text/plain";
     Content := Str.UTF8_GetBytes "not found" |}.

Definition untyped : HttpResponseMessage :=
  {| RemoteStatusCode := 200;
     RemoteHeaders := [("ETag", ["x1"])];
     ContentHeaders := [];
     MediaType := None;
     Content := Str.UTF8_GetBytes "body{}" |}.

(** Root [/srv/public] with an index page and a file that cannot be
    read; the origin knows two URLs and fails on every other. *)
Definition w : World :=
  world ["/srv/public"]
        [("/srv/public/index.html", Returned html_A);
         ("/srv/public/locked.css", Thrown "Access to the path is denied.")]
        [("https://example.com/missing.js?v=1", Returned not_found);
         ("https://example.com/theme.css", Returned untyped)].

Definition request (raw abs : string) : HttpListenerRequest :=
  {| RawUrl := raw; AbsolutePath := abs |}.


End Posix.


(* ================================================================== *)
(** ** The listener: connections, clients that go away, the start *)

(** The response and the context of a connection whose client has gone
    before anything is written. *)
Definition gone_response : HttpListenerResponse :=
  {| StatusCode := 200; ContentType := None; Headers := [];
     ContentLength64 := 0; OutputStream := []; Closed := false;
     ClientConnected := false |}.

Definition gone_context : State := {| Response := gone_response; Trace := [] |}.

Definition context (connected : bool) : State :=
  if connected then new_context else gone_context.

(** What [GetContext] hands over: the request, the world at that time
    and whether the client stays connected while it is answered. *)
Record Connection := {
  ConnWorld : World;
  ConnRequest : HttpListenerRequest;
  ConnClient : bool
}.

Definition is_console (ev : Event) : bool :=
  match ev with Logged _ _ => true | HostLine _ => true | _ => false end.

Module Listener.

Section Loop.

Variable P : Platform.

(** [while ($true) { $context = $listener.GetContext(); try ... }]:
    each element of [incoming] is what one call of [GetContext] does,
    return a connection or throw.  [GetContext] is outside the inner
    [try], so its exception leaves the loop, and so does an exception
    of the [catch] block of an iteration. *)
Fixpoint accept_loop (rootFull RemoteOrigin : string)
  (incoming : list (Outcome Connection)) : list State * Ending :=
  match incoming with
  | [] => ([], Waiting)
  | Thrown e :: _ => ([], Terminated e)
  | Returned c :: later =>
      match Handle P (ConnWorld c) rootFull RemoteOrigin (ConnRequest c)
                   (context (ConnClient c)) with
      | (Returned _, s) =>
          let (served, ending) := accept_loop rootFull RemoteOrigin later in
          (s :: served, ending)
      | (Thrown e, s) => ([s], Terminated e)
      end
  end.

(** [Start-StaticServer]: the root is normalized and tested, the
    listener is given its prefix and started, the four lines are
    written, and the loop runs.  Every exception before the loop ends
    the start. *)
Definition Start_StaticServer (w0 : World) (Port : Z) (Root RemoteOrigin : string)
  (incoming : list (Outcome Connection)) : Run :=
  match GetFullPath P Root with
  | Thrown e => {| Console := []; Exchanges := []; Ended := Terminated e |}
  | Returned rootFull =>
      if negb (Test_Path w0 rootFull) then
        {| Console := []; Exchanges := [];
           Ended := Terminated ("Root directory not found: " ++ rootFull) |}
      else
        let prefix := ("http://localhost:" ++ Str.of_int Port ++ "/")%string in
        match Listen w0 prefix with
        | Thrown e => {| Console := []; Exchanges := []; Ended := Terminated e |}
        | Returned _ =>
            let (served, ending) := accept_loop rootFull RemoteOrigin incoming in
            {| Console := [ Logged Info ("Server listening at " ++ prefix);
                            HostLine prefix;
                            Logged Info ("Root: " ++ rootFull);
                            Logged Info ("Remote origin (fallback proxy): " ++ RemoteOrigin) ];
               Exchanges := served;
               Ended := ending |}
        end
  end.

(** Everything the process writes to its console, in order: the lines
    of the start, the lines logged while each request is handled, and
    the error line of the entry block when the server ends with an
    exception. *)
Definition Entry (w0 : World) (Port : Z) (Root RemoteOrigin : string)
  (incoming : list (Outcome Connection)) : list Event :=
  let run := Start_StaticServer w0 Port Root RemoteOrigin incoming in
  Console run
  ++ flat_map (fun s => filter is_console (Trace s)) (Exchanges run)
  ++ match Ended run with
     | Waiting => []
     | Terminated e => [Logged Error e]
     end.

End Loop.

End Listener.

(* ================================================================== *)
(** ** More platforms and worlds for concrete runs *)

(** A platform in the style of Windows before version 11, as far as the
    paths built from a URL path without dot segments go: [\] separates
    directories, [Join-Path] puts one between root and relative part
    and turns [/] into [\], and the full path of a path whose last part
    is the name of a legacy device (CON, PRN, AUX, NUL) is the device
    path [\\.\name]. *)
Module Dos.

Definition backslash : ascii := ascii_of_nat 92.

Definition is_separator (c : ascii) : bool :=
  Ascii.eqb c backslash || Ascii.eqb c "/"%char.

Fixpoint flip (s : string) : string :=
  match s with
  | EmptyString => EmptyString
  | String a r => String (if Ascii.eqb a "/"%char then backslash else a) (flip r)
  end.

Definition join_path (parent child : string) : string :=
  (parent ++ String backslash (flip child))%string.

Fixpoint has_separator (s : string) : bool :=
  match s with
  | EmptyString => false
  | String a r => is_separator a || has_separator r
  end.

Fixpoint last_part (s : string) : string :=
  match s with
  | EmptyString => EmptyString
  | String a r =>
      if has_separator r then last_part r
      else if is_separator a then r
      else s
  end.

Definition is_device (name : string) : bool :=
  existsb (Str.eq_ci name) ["con"; "prn"; "aux"; "nul"].

Definition device_prefix : string :=
  String backslash (String backslash (String "."%char (String backslash EmptyString))).

Definition full_path (path : string) : Outcome string :=
  if String.eqb path EmptyString then Thrown "The path is empty."
  else if is_device (last_part path) then Returned (device_prefix ++ last_part path)%string
  else Returned path.

Definition platform : Platform :=
  {| IsDirectorySeparator := is_separator;
     Join_Path := join_path;
     GetFullPath := full_path;
     Uri_AbsolutePath := Posix.absolute_path |}.


End Dos.

Module Scenes.


(** The world of [Posix.w] with the port taken by another process. *)
Definition busy : World :=
  {| Test_Path := Test_Path Posix.w;
     Test_Path_Leaf := Test_Path_Leaf Posix.w;
     ReadAllBytes := ReadAllBytes Posix.w;
     GetAsync := GetAsync Posix.w;
     Listen := fun _ =>
       Thrown "Failed to listen on prefix because it conflicts with an existing registration." |}.

Definition connection (connected : bool) (raw abs : string) : Connection :=
  {| ConnWorld := Posix.w; ConnRequest := Posix.request raw abs; ConnClient := connected |}.

End Scenes.




(* ================================================================== *)
(** ** Vocabulary of the statements *)

(** The text responses of [Send-Text] on a new context. *)
Definition text_response (code : Z) (text : string) : HttpListenerResponse :=
  {| StatusCode := code;
     ContentType := Some "text/plain; charset=utf-8";
     Headers := [];
     ContentLength64 := LongLength (Str.UTF8_GetBytes text);
     OutputStream := Str.UTF8_GetBytes text;
     Closed := true; ClientConnected := true |}.

Definition is_FileRead (ev : Event) : bool :=
  match ev with FileRead _ => true | _ => false end.


Definition is_RemoteGet (ev : Event) : bool :=
  match ev with RemoteGet _ => true | _ => false end.


Definition reads (tr : list Event) : nat := length (filter is_FileRead tr).

Definition gets (tr : list Event) : nat := length (filter is_RemoteGet tr).

(** The three cache-disabling headers of a local file. *)
Definition NoCacheHeaders : list (string * string) :=
  [ ("Cache-Control", "no-cache, no-store, must-revalidate");
    ("Pragma", "no-cache");
    ("Expires", "0") ].

(** Header relay as the specification words it: a header is dropped when
    its name is, ignoring case, on the blocklist of its header set, and
    copied with its values joined otherwise. *)
Definition on_blocklist (blocklist : list string) (name : string) : bool :=
  existsb (fun entry => Str.eq_ci name entry) blocklist.

Definition relayed (blocklist : list string) (hs : list (string * list string))
  : list (string * string) :=
  map (fun h => (fst h, Str.join ", " (snd h)))
      (filter (fun h => negb (on_blocklist blocklist (fst h))) hs).

(** The names of both header sets of a remote response, folded to lower
    case.  [HttpClient] keeps one entry per name and never files a
    header under both sets, and a name is a token without line feed. *)
Definition header_names (r : HttpResponseMessage) : list string :=
  map (fun h => Str.ToLowerInvariant (fst h)) (RemoteHeaders r ++ ContentHeaders r).

Definition lower_name {V : Type} (e : string * V) : string :=
  Str.ToLowerInvariant (fst e).

Definition is_token (name : string) : bool :=
  negb (Str.contains Str.LF_char name).

Definition well_formed_headers (r : HttpResponseMessage) : Prop :=
  NoDup (header_names r) /\
  forall h, In h (RemoteHeaders r ++ ContentHeaders r) -> is_token (fst h) = true.

(** What a [foreach] over a header set leaves in the header collection
    [hs0] of the local response. *)
Definition relay_fold (blocklist : list string) (hs : list (string * list string))
  (hs0 : list (string * string)) : list (string * string) :=
  fold_left
    (fun acc h =>
       if Str.regex_alternatives blocklist (fst h) then acc
       else assign_header (fst h) (Str.join ", " (snd h)) acc)
    hs hs0.

Definition with_Headers (r : HttpListenerResponse) (hs : list (string * string))
  : HttpListenerResponse :=
  {| StatusCode := StatusCode r; ContentType := ContentType r; Headers := hs;
     ContentLength64 := ContentLength64 r; OutputStream := OutputStream r;
     Closed := Closed r; ClientConnected := ClientConnected r |}.


(** The request was turned away: status 403 and not a single event. *)
Definition rejected (s : State) : bool :=
  Z.eqb (StatusCode (Response s)) 403 &&
  match Trace s with [] => true | _ :: _ => false end.

(** No character of [s] is a directory separator of the platform. *)
Definition no_separator (P : Platform) (s : string) : bool :=
  forallb (fun c => negb (IsDirectorySeparator P c)) (list_ascii_of_string s).

Definition dot : ascii := "."%char.

(* ================================================================== *)
(** ** Case folding and trimming *)

Section StringFacts.

Lemma to_lower_idempotent (c : ascii) : Str.to_lower (Str.to_lower c) = Str.to_lower c.
Proof. destruct c as [[] [] [] [] [] [] [] []]; reflexivity. Qed.

Lemma to_lower_to_upper (c : ascii) : Str.to_lower (Str.to_upper c) = Str.to_lower c.
Proof. destruct c as [[] [] [] [] [] [] [] []]; reflexivity. Qed.

Lemma to_upper_to_lower (c : ascii) : Str.to_upper (Str.to_lower c) = Str.to_upper c.
Proof. destruct c as [[] [] [] [] [] [] [] []]; reflexivity. Qed.

Lemma char_eq_ci_iff (a b : ascii) :
  Str.char_eq_ci a b = true <-> Str.to_lower a = Str.to_lower b.
Proof.
  unfold Str.char_eq_ci. rewrite Ascii.eqb_eq. split; intro H.
  - rewrite <- (to_lower_to_upper a), <- (to_lower_to_upper b). now rewrite H.
  - rewrite <- (to_upper_to_lower a), <- (to_upper_to_lower b). now rewrite H.
Qed.

Lemma ToLowerInvariant_idempotent (s : string) :
  Str.ToLowerInvariant (Str.ToLowerInvariant s) = Str.ToLowerInvariant s.
Proof.
  induction s as [|c s IH]; simpl; [reflexivity|].
  now rewrite to_lower_idempotent, IH.
Qed.

Lemma eq_ci_iff (a b : string) :
  Str.eq_ci a b = true <-> Str.ToLowerInvariant a = Str.ToLowerInvariant b.
Proof.
  revert b. induction a as [|x a IH]; intros [|y b]; simpl; split; intro H;
    try reflexivity; try discriminate.
  - apply andb_true_iff in H. destruct H as [Hc Hs].
    apply char_eq_ci_iff in Hc. apply IH in Hs. now rewrite Hc, Hs.
  - injection H as Hc Hs. apply andb_true_iff. split.
    + now apply char_eq_ci_iff.
    + now apply IH.
Qed.

(** On strings already in lower case the comparison is plain equality. *)
Lemma eq_ci_lower (a b : string) :
  Str.ToLowerInvariant a = a -> Str.ToLowerInvariant b = b ->
  Str.eq_ci a b = String.eqb a b.
Proof.
  intros Ha Hb. apply Bool.eq_true_iff_eq.
  rewrite eq_ci_iff, String.eqb_eq, Ha, Hb. tauto.
Qed.

Lemma eq_ci_slash (s : string) : Str.eq_ci s "/" = true <-> s = "/".
Proof.
  split; [|intros ->; reflexivity].
  destruct s as [|c [|d s]]; simpl; try discriminate.
  - rewrite andb_true_r. intro H.
    destruct c as [[] [] [] [] [] [] [] []]; try discriminate H; reflexivity.
  - rewrite andb_false_r. discriminate.
Qed.

Lemma TrimStart_spec (c : ascii) (s : string) :
  exists n, s = (Str.replicate n c ++ Str.TrimStart c s)%string /\
            Str.first_is c (Str.TrimStart c s) = false.
Proof.
  induction s as [|a s [n [Heq Hfirst]]]; simpl.
  - exists 0%nat. split; reflexivity.
  - destruct (Ascii.eqb a c) eqn:E.
    + apply Ascii.eqb_eq in E. subst a. exists (S n). simpl. split; [now f_equal | assumption].
    + exists 0%nat. simpl. split; [reflexivity | assumption].
Qed.

Lemma TrimStart_fixed (c : ascii) (s : string) :
  Str.first_is c s = false -> Str.TrimStart c s = s.
Proof. destruct s as [|a s]; simpl; [reflexivity|]. now intros ->. Qed.

End StringFacts.

(** The definitions run: a few path and content-type computations. *)
Example TrimStart_slashes : Str.TrimStart "/"%char "///a/b.js" = "a/b.js".
Proof. reflexivity. Qed.

Example TrimEnd_slashes : Str.TrimEnd "/"%char "https://example.com//" = "https://example.com".
Proof. reflexivity. Qed.

Example StartsWith_ignores_case :
  Str.StartsWith_OrdinalIgnoreCase "/SRV/Public/a.txt" "/srv/public" = true.
Proof. reflexivity. Qed.

Example GetExtension_last_dot :
  GetExtension Posix.platform "/srv/public/lib.v2/app.min.JS" = ".JS".
Proof. reflexivity. Qed.

Example GetExtension_directory_dot :
  GetExtension Posix.platform "/srv/public/lib.v2/README" = EmptyString.
Proof. reflexivity. Qed.

Example GetExtension_trailing_dot :
  GetExtension Posix.platform "/srv/public/notes." = EmptyString.
Proof. reflexivity. Qed.

Example Get_ContentType_upper_case :
  Get_ContentType Posix.platform "/srv/public/INDEX.HTML" = "text/html; charset=utf-8".
Proof. reflexivity. Qed.

Example Get_ContentType_unknown :
  Get_ContentType Posix.platform "/srv/public/data.tar.gz" = "application/octet-stream".
Proof. reflexivity. Qed.

Example blocklist_ignores_case :
  Str.regex_alternatives TransportBlocklist "set-cookie" = true
  /\ Str.regex_alternatives TransportBlocklist "X-Connection" = false.
Proof. split; reflexivity. Qed.

(* ================================================================== *)
(** ** The script fragments, run *)

Section ScriptFacts.

Variable P : Platform.

Lemma Send_Text_open (code : Z) (text : string) (s : State) :
  Closed (Response s) = false ->
  ClientConnected (Response s) = true ->
  Send_Text code text s =
  (Returned tt,
   {| Response :=
        {| StatusCode := code;
           ContentType := Some "text/plain; charset=utf-8";
           Headers := Headers (Response s);
           ContentLength64 := LongLength (Str.UTF8_GetBytes text);
           OutputStream := OutputStream (Response s) ++ Str.UTF8_GetBytes text;
           Closed := true; ClientConnected := true |};
      Trace := Trace s |}).
Proof.
  destruct s as [[sc ct hs cl out closed connected] tr]. simpl. intros -> ->. reflexivity.
Qed.

Lemma Send_Text_new (code : Z) (text : string) (tr : list Event) :
  Send_Text code text {| Response := new_response; Trace := tr |} =
  (Returned tt, {| Response := text_response code text; Trace := tr |}).
Proof. reflexivity. Qed.

Lemma foreach_relay (blocklist : list string) (hs : list (string * list string)) (s : State) :
  foreach hs (relay_header blocklist) s =
  (Returned tt,
   {| Response := with_Headers (Response s) (relay_fold blocklist hs (Headers (Response s)));
      Trace := Trace s |}).
Proof.
  revert s. induction hs as [|h hs IH]; intros [[sc ct hs0 cl out closed connected] tr].
  - reflexivity.
  - simpl foreach. unfold bind, relay_header.
    destruct (Str.regex_alternatives blocklist (fst h)) eqn:E.
    + cbn -[Str.regex_alternatives]. rewrite IH. unfold relay_fold. simpl.
      rewrite E. reflexivity.
    + cbn -[Str.regex_alternatives assign_header]. rewrite IH. unfold relay_fold. simpl.
      rewrite E. reflexivity.
Qed.

Lemma Send_LocalFile_read (w : World) (FilePath : string) (bytes : list byte)
  (tr : list Event) :
  ReadAllBytes w FilePath = Returned bytes ->
  Send_LocalFile P w FilePath {| Response := new_response; Trace := tr |} =
  (Returned tt,
   {| Response :=
        {| StatusCode := 200;
           ContentType := Some (Get_ContentType P FilePath);
           Headers := NoCacheHeaders;
           ContentLength64 := LongLength bytes;
           OutputStream := bytes;
           Closed := true; ClientConnected := true |};
      Trace := tr ++ [FileRead FilePath] |}).
Proof.
  intro Hread.
  unfold Send_LocalFile, try_catch_finally, try_finally, try_catch, bind, call_ReadAllBytes.
  simpl. rewrite Hread. reflexivity.
Qed.

Lemma Send_LocalFile_unreadable (w : World) (FilePath message : string)
  (tr : list Event) :
  ReadAllBytes w FilePath = Thrown message ->
  Send_LocalFile P w FilePath {| Response := new_response; Trace := tr |} =
  (Returned tt,
   {| Response := text_response 500 "Internal Server Error";
      Trace := tr ++ [FileRead FilePath;
                      Logged Error ("Send-LocalFile error: " ++ message)] |}).
Proof.
  intro Hread.
  unfold Send_LocalFile, try_catch_finally, try_finally, try_catch, bind, call_ReadAllBytes.
  simpl. rewrite Hread. unfold Write_Log, emit. simpl.
  rewrite <- app_assoc. reflexivity.
Qed.

Lemma Proxy_RemoteRequest_answered (w : World) (RemoteUrl : string)
  (response : HttpResponseMessage) (tr : list Event) :
  GetAsync w RemoteUrl = Returned response ->
  Proxy_RemoteRequest P w RemoteUrl {| Response := new_response; Trace := tr |} =
  (Returned tt,
   {| Response :=
        {| StatusCode := RemoteStatusCode response;
           ContentType :=
             Some match MediaType response with
                  | Some contentType => contentType
                  | None => Get_ContentType P (Uri_AbsolutePath P RemoteUrl)
                  end;
           Headers :=
             relay_fold ContentBlocklist (ContentHeaders response)
               (relay_fold TransportBlocklist (RemoteHeaders response) []);
           ContentLength64 := LongLength (Content response);
           OutputStream := Content response;
           Closed := true; ClientConnected := true |};
      Trace := tr ++ [RemoteGet RemoteUrl] |}).
Proof.
  intro Hget.
  unfold Proxy_RemoteRequest, try_catch_finally, try_finally, try_catch, call_GetAsync.
  unfold bind at 1. simpl. rewrite Hget.
  unfold bind at 1. simpl.
  unfold bind at 1.
  destruct (MediaType response) as [contentType|]; simpl;
    unfold bind at 1; rewrite foreach_relay; simpl;
    unfold bind at 1; rewrite foreach_relay; simpl; reflexivity.
Qed.

Lemma Proxy_RemoteRequest_failed (w : World) (RemoteUrl message : string)
  (tr : list Event) :
  GetAsync w RemoteUrl = Thrown message ->
  Proxy_RemoteRequest P w RemoteUrl {| Response := new_response; Trace := tr |} =
  (Returned tt,
   {| Response := text_response 502 "Bad Gateway";
      Trace := tr ++ [RemoteGet RemoteUrl;
                      Logged Error ("Proxy error: " ++ RemoteUrl ++ " => " ++ message)] |}).
Proof.
  intro Hget.
  unfold Proxy_RemoteRequest, try_catch_finally, try_finally, try_catch, call_GetAsync.
  unfold bind at 1. simpl. rewrite Hget. unfold Write_Log, emit, bind. simpl.
  rewrite <- app_assoc. reflexivity.
Qed.

(** The inner [try] block once the path has been normalized. *)
Lemma Dispatch_routed (w : World) (rootFull RemoteOrigin : string)
  (req : HttpListenerRequest) (localFull : string) :
  GetFullPath P (localPath P rootFull (AbsolutePath req)) = Returned localFull ->
  Dispatch P w rootFull RemoteOrigin req new_context =
  if negb (Str.StartsWith_OrdinalIgnoreCase localFull rootFull) then
    (Returned tt, {| Response := text_response 403 "Forbidden"; Trace := [] |})
  else if Test_Path_Leaf w localFull then
    Send_LocalFile P w localFull
      {| Response := new_response; Trace := [LeafTested localFull] |}
  else
    Proxy_RemoteRequest P w (remoteUrl RemoteOrigin (RawUrl req))
      {| Response := new_response; Trace := [LeafTested localFull] |}.
Proof.
  intro Hfull. unfold Dispatch, bind, call. rewrite Hfull.
  destruct (Str.StartsWith_OrdinalIgnoreCase localFull rootFull); simpl negb; cbv iota.
  - unfold call_Test_Path_Leaf. simpl.
    destruct (Test_Path_Leaf w localFull); reflexivity.
  - reflexivity.
Qed.

Lemma Dispatch_unresolved (w : World) (rootFull RemoteOrigin : string)
  (req : HttpListenerRequest) (message : string) :
  GetFullPath P (localPath P rootFull (AbsolutePath req)) = Thrown message ->
  Dispatch P w rootFull RemoteOrigin req new_context = (Thrown message, new_context).
Proof. intro Hfull. unfold Dispatch, bind, call. now rewrite Hfull. Qed.

(** From a new context neither responder lets an exception out. *)
Lemma Send_LocalFile_returns (w : World) (FilePath : string) (tr : list Event) :
  fst (Send_LocalFile P w FilePath {| Response := new_response; Trace := tr |}) = Returned tt.
Proof.
  destruct (ReadAllBytes w FilePath) as [bytes|message] eqn:E.
  - now rewrite (Send_LocalFile_read w FilePath bytes tr E).
  - now rewrite (Send_LocalFile_unreadable w FilePath message tr E).
Qed.

Lemma Proxy_RemoteRequest_returns (w : World) (RemoteUrl : string) (tr : list Event) :
  fst (Proxy_RemoteRequest P w RemoteUrl {| Response := new_response; Trace := tr |}) = Returned tt.
Proof.
  destruct (GetAsync w RemoteUrl) as [response|message] eqn:E.
  - now rewrite (Proxy_RemoteRequest_answered w RemoteUrl response tr E).
  - now rewrite (Proxy_RemoteRequest_failed w RemoteUrl message tr E).
Qed.

Lemma Dispatch_returns_when_resolved (w : World) (rootFull RemoteOrigin : string)
  (req : HttpListenerRequest) (localFull : string) :
  GetFullPath P (localPath P rootFull (AbsolutePath req)) = Returned localFull ->
  fst (Dispatch P w rootFull RemoteOrigin req new_context) = Returned tt.
Proof.
  intro Hfull. rewrite (Dispatch_routed w rootFull RemoteOrigin req localFull Hfull).
  destruct (negb _); [reflexivity|].
  destruct (Test_Path_Leaf w localFull).
  - apply Send_LocalFile_returns.
  - apply Proxy_RemoteRequest_returns.
Qed.

Lemma Handle_resolved (w : World) (rootFull RemoteOrigin : string)
  (req : HttpListenerRequest) (localFull : string) :
  GetFullPath P (localPath P rootFull (AbsolutePath req)) = Returned localFull ->
  Handle P w rootFull RemoteOrigin req new_context =
  Dispatch P w rootFull RemoteOrigin req new_context.
Proof.
  intro Hfull. unfold Handle, try_catch.
  pose proof (Dispatch_returns_when_resolved w rootFull RemoteOrigin req localFull Hfull) as H.
  destruct (Dispatch P w rootFull RemoteOrigin req new_context) as [[[]|e] s];
    [reflexivity | discriminate H].
Qed.

Lemma Handle_unresolved (w : World) (rootFull RemoteOrigin : string)
  (req : HttpListenerRequest) (message : string) :
  GetFullPath P (localPath P rootFull (AbsolutePath req)) = Thrown message ->
  Handle P w rootFull RemoteOrigin req new_context =
  (Returned tt, {| Response := text_response 500 "Internal Server Error"; Trace := [] |}).
Proof.
  intro Hfull. unfold Handle, try_catch.
  now rewrite (Dispatch_unresolved w rootFull RemoteOrigin req message Hfull).
Qed.

Lemma Handle_returns (w : World) (rootFull RemoteOrigin : string)
  (req : HttpListenerRequest) :
  fst (Handle P w rootFull RemoteOrigin req new_context) = Returned tt.
Proof.
  destruct (GetFullPath P (localPath P rootFull (AbsolutePath req))) as [localFull|e] eqn:E.
  - rewrite (Handle_resolved w rootFull RemoteOrigin req localFull E).
    now apply Dispatch_returns_when_resolved with localFull.
  - now rewrite (Handle_unresolved w rootFull RemoteOrigin req e E).
Qed.

End ScriptFacts.

(* ================================================================== *)
(** ** The extension table *)

Lemma Get_ContentType_table (P : Platform) (Path : string) :
  Get_ContentType P Path =
  table_lookup MimeTable GenericBinary (Str.ToLowerInvariant (GetExtension P Path)).
Proof.
  unfold Get_ContentType, switch_ext.
  set (ext := Str.ToLowerInvariant (GetExtension P Path)).
  assert (Hext : Str.ToLowerInvariant ext = ext) by apply ToLowerInvariant_idempotent.
  rewrite !(eq_ci_lower _ _ Hext) by reflexivity.
  reflexivity.
Qed.

Lemma table_lookup_unlisted (table : list (string * string)) (default ext : string) :
  (forall entry, In entry table -> fst entry <> ext) ->
  table_lookup table default ext = default.
Proof.
  induction table as [|[k v] table IH]; simpl; intro H; [reflexivity|].
  destruct (String.eqb_spec ext k) as [->|_].
  - exfalso. now apply (H (k, v)); [left|].
  - apply IH. intros entry Hin. apply H. now right.
Qed.

(* ================================================================== *)
(** ** Routing *)





(** C2.  The candidate local file of the request path "/" is the root
    joined with index.html; of any other path it is the root joined with
    what is left of the path once its leading slashes are stripped, so
    for a path made of one slash and a relative part, the root joined
    with that part. *)
Theorem candidate_path_resolution (P : Platform) (rootFull : string) :
  localPath P rootFull "/" = Join_Path P rootFull "index.html"
  /\ (forall absPath, absPath <> "/" ->
        exists n rel,
          absPath = (Str.replicate n "/"%char ++ rel)%string /\
          Str.first_is "/"%char rel = false /\
          localPath P rootFull absPath = Join_Path P rootFull rel)
  /\ (forall rel, rel <> EmptyString -> Str.first_is "/"%char rel = false ->
        localPath P rootFull (String "/"%char rel) = Join_Path P rootFull rel).
Proof.
  split; [reflexivity|]. split.
  - intros absPath Hne. unfold localPath.
    destruct (Str.eq_ci absPath "/") eqn:E.
    + apply eq_ci_slash in E. contradiction.
    + destruct (TrimStart_spec "/"%char absPath) as [n [Heq Hfirst]].
      exists n, (Str.TrimStart "/"%char absPath). auto.
  - intros rel Hne Hfirst. unfold localPath.
    destruct (Str.eq_ci (String "/"%char rel) "/") eqn:E.
    + apply eq_ci_slash in E. injection E as E. contradiction.
    + simpl. now rewrite TrimStart_fixed.
Qed.

Lemma candidate_path_witness :
  localPath Posix.platform "/srv/public" "/" = "/srv/public/index.html"
  /\ localPath Posix.platform "/srv/public" "/assets/app.js" = "/srv/public/assets/app.js".
Proof.
  destruct (candidate_path_resolution Posix.platform "/srv/public") as (H1 & _ & H3).
  split.
  - rewrite H1. reflexivity.
  - rewrite (H3 "assets/app.js"); [reflexivity | discriminate | reflexivity].
Defined.

(* ================================================================== *)
(** ** Local files *)

(** C3.  When the normalized path lies under the root, is an existing
    regular file and is read as [bytes], the response has status 200,
    the Content-Type the extension table gives for the path (a table
    with a default: an extension it does not list gives
    application/octet-stream), a body equal to [bytes] and a
    Content-Length equal to their number. *)
Theorem local_file_served
  (P : Platform) (w : World) (rootFull RemoteOrigin : string)
  (req : HttpListenerRequest) (localFull : string) (bytes : list byte) :
  GetFullPath P (localPath P rootFull (AbsolutePath req)) = Returned localFull ->
  Str.StartsWith_OrdinalIgnoreCase localFull rootFull = true ->
  Test_Path_Leaf w localFull = true ->
  ReadAllBytes w localFull = Returned bytes ->
  let r := Response (snd (Handle P w rootFull RemoteOrigin req new_context)) in
  StatusCode r = 200%Z
  /\ ContentType r =
       Some (table_lookup MimeTable GenericBinary
               (Str.ToLowerInvariant (GetExtension P localFull)))
  /\ OutputStream r = bytes
  /\ ContentLength64 r = Z.of_nat (length bytes)
  /\ (forall Path,
        (forall entry, In entry MimeTable ->
           fst entry <> Str.ToLowerInvariant (GetExtension P Path)) ->
        Get_ContentType P Path = "application/octet-stream").
Proof.
  intros Hfull Hstart Hleaf Hread r.
  assert (E : r =
    {| StatusCode := 200; ContentType := Some (Get_ContentType P localFull);
       Headers := NoCacheHeaders; ContentLength64 := LongLength bytes;
       OutputStream := bytes; Closed := true; ClientConnected := true |}).
  { subst r. unfold Handle, try_catch, Dispatch, bind, call, call_Test_Path_Leaf.
    rewrite Hfull, Hstart, Hleaf. simpl negb. cbv iota beta.
    unfold Send_LocalFile, try_catch_finally, try_finally, try_catch, bind, call_ReadAllBytes.
    simpl. rewrite Hread. reflexivity. }
  rewrite E. simpl. rewrite Get_ContentType_table.
  repeat split; try reflexivity.
  intros Path Hnone. rewrite Get_ContentType_table.
  now apply table_lookup_unlisted.
Qed.

Lemma local_file_served_witness :
  let r := Response (snd (Handle Posix.platform Posix.w "/srv/public" "https://example.com"
                                 (Posix.request "/" "/") new_context)) in
  StatusCode r = 200%Z
  /\ ContentType r = Some "text/html; charset=utf-8"
  /\ OutputStream r = Str.UTF8_GetBytes "<html>A</html>"
  /\ ContentLength64 r = 14%Z.
Proof.
  destruct (local_file_served Posix.platform Posix.w "/srv/public" "https://example.com"
              (Posix.request "/" "/") "/srv/public/index.html"
              Posix.html_A eq_refl eq_refl eq_refl eq_refl)
    as (H1 & H2 & H3 & H4 & _).
  exact (conj H1 (conj H2 (conj H3 H4))).
Defined.

Lemma try_finally_closes {A : Type} (body : Script A) (s : State) :
  Closed (Response (snd (try_finally body OutputStream_Close s))) = true.
Proof. unfold try_finally. destruct (body s) as [r s']. reflexivity. Qed.

(** C7.  When an existing local file cannot be read, the response is
    500 with the fixed text "Internal Server Error" whatever the error
    says, the error message goes to the log, and the handler returns;
    and from any state and on any way out, with or without exception,
    [Send-LocalFile] leaves the output stream closed. *)
Theorem unreadable_file_is_internal_error
  (P : Platform) (w : World) (rootFull RemoteOrigin : string)
  (req : HttpListenerRequest) (localFull message : string) :
  GetFullPath P (localPath P rootFull (AbsolutePath req)) = Returned localFull ->
  Str.StartsWith_OrdinalIgnoreCase localFull rootFull = true ->
  Test_Path_Leaf w localFull = true ->
  ReadAllBytes w localFull = Thrown message ->
  Handle P w rootFull RemoteOrigin req new_context =
    (Returned tt,
     {| Response := text_response 500 "Internal Server Error";
        Trace := [LeafTested localFull; FileRead localFull;
                  Logged Error ("Send-LocalFile error: " ++ message)] |})
  /\ (forall (w' : World) (FilePath : string) (s : State),
        Closed (Response (snd (Send_LocalFile P w' FilePath s))) = true).
Proof.
  intros Hfull Hstart Hleaf Hread. split.
  - rewrite (Handle_resolved P w rootFull RemoteOrigin req localFull Hfull).
    rewrite (Dispatch_routed P w rootFull RemoteOrigin req localFull Hfull).
    rewrite Hstart, Hleaf. simpl negb. cbv iota.
    now rewrite (Send_LocalFile_unreadable P w localFull message _ Hread).
  - intros w' FilePath s. unfold Send_LocalFile, try_catch_finally.
    apply try_finally_closes.
Qed.

Lemma unreadable_file_witness :
  Handle Posix.platform Posix.w "/srv/public" "https://example.com"
         (Posix.request "/locked.css" "/locked.css") new_context =
    (Returned tt,
     {| Response := text_response 500 "Internal Server Error";
        Trace := [LeafTested "/srv/public/locked.css"; FileRead "/srv/public/locked.css";
                  Logged Error "Send-LocalFile error: Access to the path is denied."] |}).
Proof.
  exact (proj1 (unreadable_file_is_internal_error
                  Posix.platform Posix.w "/srv/public" "https://example.com"
                  (Posix.request "/locked.css" "/locked.css")
                  "/srv/public/locked.css" "Access to the path is denied."
                  eq_refl eq_refl eq_refl eq_refl)).
Defined.

(* ================================================================== *)
(** ** The remote fallback *)

(** C4, as stated, fails: with a remote origin that ends in a slash the
    outbound request does not go to the origin concatenated with the raw
    URL. *)
Lemma remote_url_is_not_plain_concatenation :
  GetFullPath Posix.platform
    (localPath Posix.platform "/srv/public" "/missing.js") = Returned "/srv/public/missing.js"
  /\ Str.StartsWith_OrdinalIgnoreCase "/srv/public/missing.js" "/srv/public" = true
  /\ Test_Path_Leaf Posix.w "/srv/public/missing.js" = false
  /\ filter is_RemoteGet
       (Trace (snd (Handle Posix.platform Posix.w "/srv/public" "https://example.com/"
                           (Posix.request "/missing.js?v=1" "/missing.js") new_context)))
     = [RemoteGet "https://example.com/missing.js?v=1"]
  /\ ~ In (RemoteGet ("https://example.com/" ++ "/missing.js?v=1"))
          (Trace (snd (Handle Posix.platform Posix.w "/srv/public" "https://example.com/"
                              (Posix.request "/missing.js?v=1" "/missing.js") new_context))).
Proof.
  repeat split; try reflexivity.
  vm_compute. intros [H | [H | []]]; discriminate H.
Qed.

(** C4, amended.  A request that is not rejected and whose normalized
    path is no existing regular file causes exactly one outbound GET,
    to the remote origin without its trailing slashes followed by the
    raw URL (path and query as received); when that GET is answered,
    the local status is the remote status and the Content-Type is the
    remote Content-Type when there is one, otherwise the one
    [Get-ContentType] gives for the path of the URL. *)
Theorem proxy_fallback_request
  (P : Platform) (w : World) (rootFull RemoteOrigin : string)
  (req : HttpListenerRequest) (localFull : string) :
  GetFullPath P (localPath P rootFull (AbsolutePath req)) = Returned localFull ->
  Str.StartsWith_OrdinalIgnoreCase localFull rootFull = true ->
  Test_Path_Leaf w localFull = false ->
  let url := (Str.TrimEnd "/"%char RemoteOrigin ++ RawUrl req)%string in
  let s := snd (Handle P w rootFull RemoteOrigin req new_context) in
  filter is_RemoteGet (Trace s) = [RemoteGet url]
  /\ (forall response, GetAsync w url = Returned response ->
        StatusCode (Response s) = RemoteStatusCode response
        /\ ContentType (Response s) =
             Some match MediaType response with
                  | Some contentType => contentType
                  | None => Get_ContentType P (Uri_AbsolutePath P url)
                  end).
Proof.
  intros Hfull Hstart Hleaf url s. subst s.
  rewrite (Handle_resolved P w rootFull RemoteOrigin req localFull Hfull).
  rewrite (Dispatch_routed P w rootFull RemoteOrigin req localFull Hfull).
  rewrite Hstart, Hleaf. simpl negb. cbv iota. fold url.
  change (remoteUrl RemoteOrigin (RawUrl req)) with url.
  destruct (GetAsync w url) as [response|message] eqn:E.
  - rewrite (Proxy_RemoteRequest_answered P w url response _ E). split; [reflexivity|].
    intros response' H. injection H as <-. split; reflexivity.
  - rewrite (Proxy_RemoteRequest_failed P w url message _ E). split; [reflexivity|].
    intros response' H. discriminate H.
Qed.

Lemma proxy_fallback_witness :
  filter is_RemoteGet
    (Trace (snd (Handle Posix.platform Posix.w "/srv/public" "https://example.com/"
                        (Posix.request "/missing.js?v=1" "/missing.js") new_context)))
  = [RemoteGet "https://example.com/missing.js?v=1"]
  /\ StatusCode (Response (snd (Handle Posix.platform Posix.w "/srv/public"
                                  "https://example.com/"
                                  (Posix.request "/missing.js?v=1" "/missing.js")
                                  new_context))) = 404%Z.
Proof.
  destruct (proxy_fallback_request Posix.platform Posix.w "/srv/public" "https://example.com/"
              (Posix.request "/missing.js?v=1" "/missing.js") "/srv/public/missing.js"
              eq_refl eq_refl eq_refl) as [H1 H2].
  split; [exact H1|].
  exact (proj1 (H2 Posix.not_found eq_refl)).
Defined.



(* ================================================================== *)
(** ** Header relay *)

Section HeaderFacts.

Lemma contains_LF_lower (s : string) :
  Str.contains Str.LF_char (Str.ToLowerInvariant s) = Str.contains Str.LF_char s.
Proof.
  induction s as [|c s IH]; simpl; [reflexivity|]. rewrite IH. f_equal.
  destruct c as [[] [] [] [] [] [] [] []]; reflexivity.
Qed.

Lemma contains_app (c : ascii) (a b : string) :
  Str.contains c (a ++ b) = Str.contains c a || Str.contains c b.
Proof.
  induction a as [|x a IH]; simpl; [reflexivity|]. now rewrite IH, orb_assoc.
Qed.

Lemma anchored_match_token (lit name : string) :
  is_token name = true -> Str.anchored_match lit name = Str.eq_ci name lit.
Proof.
  unfold is_token, Str.anchored_match. intro Htok.
  destruct (Str.eq_ci name (lit ++ Str.LF)) eqn:E; [|apply orb_false_r].
  exfalso. apply eq_ci_iff in E.
  assert (H : Str.contains Str.LF_char name = true).
  { rewrite <- contains_LF_lower, E, contains_LF_lower, contains_app.
    simpl. apply orb_true_r. }
  rewrite H in Htok. discriminate Htok.
Qed.

Lemma regex_alternatives_token (blocklist : list string) (name : string) :
  is_token name = true ->
  Str.regex_alternatives blocklist name = on_blocklist blocklist name.
Proof.
  intro Htok. unfold Str.regex_alternatives, on_blocklist.
  induction blocklist as [|lit rest IH]; simpl; [reflexivity|].
  now rewrite anchored_match_token, IH.
Qed.

Lemma regex_alternatives_miss (blocklist : list string) (lit name : string) :
  In lit blocklist ->
  Str.regex_alternatives blocklist name = false ->
  Str.eq_ci name lit = false.
Proof.
  intros Hin Hmiss. unfold Str.regex_alternatives in Hmiss.
  destruct (Str.eq_ci name lit) eqn:E; [|reflexivity].
  assert (Hex : existsb (fun l => Str.anchored_match l name) blocklist = true).
  { apply existsb_exists. exists lit. split; [assumption|].
    unfold Str.anchored_match. now rewrite E. }
  rewrite Hex in Hmiss. discriminate Hmiss.
Qed.

Lemma assign_header_fresh (name value : string) (hs : list (string * string)) :
  ~ In (Str.ToLowerInvariant name) (map lower_name hs) ->
  assign_header name value hs = hs ++ [(name, value)].
Proof.
  induction hs as [|[k v] hs IH]; simpl; intro Hfresh; [reflexivity|].
  destruct (Str.eq_ci k name) eqn:E.
  - exfalso. apply Hfresh. left. now apply eq_ci_iff.
  - f_equal. apply IH. intro Hin. apply Hfresh. now right.
Qed.

Lemma assign_header_keys (name value : string) (hs : list (string * string))
  (e : string * string) :
  In e (assign_header name value hs) -> In (fst e) (map fst hs) \/ fst e = name.
Proof.
  induction hs as [|[k v] hs IH]; simpl.
  - intros [<- | []]. now right.
  - destruct (Str.eq_ci k name).
    + intros [<- | Hin]; [left; now left|]. left. right. now apply in_map.
    + intros [<- | Hin]; [left; now left|].
      destruct (IH Hin) as [H | H]; [left; now right | now right].
Qed.

Lemma relay_fold_keys (blocklist : list string) (hs : list (string * list string))
  (hs0 : list (string * string)) (e : string * string) :
  In e (relay_fold blocklist hs hs0) ->
  In (fst e) (map fst hs0) \/ Str.regex_alternatives blocklist (fst e) = false.
Proof.
  revert hs0. unfold relay_fold.
  induction hs as [|h hs IH]; simpl; intros hs0 Hin.
  - left. now apply in_map.
  - destruct (Str.regex_alternatives blocklist (fst h)) eqn:E.
    + now apply IH.
    + destruct (IH _ Hin) as [Hk | Hk]; [|now right].
      apply in_map_iff in Hk. destruct Hk as [e' [Heq Hin']].
      destruct (assign_header_keys _ _ _ _ Hin') as [H | H].
      * left. now rewrite <- Heq.
      * right. now rewrite <- Heq, H.
Qed.

Lemma NoDup_filtered_prefix {A B : Type} (f : A -> B) (keep : A -> bool)
  (l : list A) (l2 : list B) :
  NoDup (map f l ++ l2) -> NoDup (map f (filter keep l) ++ l2).
Proof.
  induction l as [|a l IH]; simpl; intro H; [assumption|].
  apply NoDup_cons_iff in H. destruct H as [Hnot Hnd].
  destruct (keep a); simpl; [|now apply IH].
  apply NoDup_cons_iff. split; [|now apply IH].
  intro Hin. apply Hnot. apply in_app_iff in Hin. apply in_app_iff.
  destruct Hin as [Hin | Hin]; [left | now right].
  apply in_map_iff in Hin. destruct Hin as [x [Hx Hfx]].
  apply filter_In in Hfx. apply in_map_iff. exists x. tauto.
Qed.

Lemma relay_fold_fresh (blocklist : list string) (hs : list (string * list string))
  (hs0 : list (string * string)) :
  NoDup (map lower_name hs0 ++ map lower_name hs) ->
  (forall h, In h hs -> is_token (fst h) = true) ->
  relay_fold blocklist hs hs0 = hs0 ++ relayed blocklist hs.
Proof.
  revert hs0. unfold relay_fold, relayed.
  induction hs as [|h hs IH]; simpl; intros hs0 Hnd Htok.
  - now rewrite app_nil_r.
  - rewrite (regex_alternatives_token blocklist (fst h)) by (apply Htok; now left).
    destruct (on_blocklist blocklist (fst h)); simpl.
    + apply IH; [|intros; apply Htok; now right].
      now apply NoDup_remove_1 in Hnd.
    + rewrite assign_header_fresh.
      * rewrite IH.
        -- now rewrite <- app_assoc.
        -- rewrite map_app, <- app_assoc. exact Hnd.
        -- intros; apply Htok; now right.
      * apply NoDup_remove_2 in Hnd. intro Hin. apply Hnd.
        apply in_app_iff. now left.
Qed.

Lemma relay_both_sets (r : HttpResponseMessage) :
  well_formed_headers r ->
  relay_fold ContentBlocklist (ContentHeaders r)
    (relay_fold TransportBlocklist (RemoteHeaders r) []) =
  relayed TransportBlocklist (RemoteHeaders r) ++ relayed ContentBlocklist (ContentHeaders r).
Proof.
  intros [Hnd Htok]. unfold header_names in Hnd. rewrite map_app in Hnd.
  rewrite (relay_fold_fresh TransportBlocklist (RemoteHeaders r) []).
  - simpl. apply relay_fold_fresh.
    + unfold relayed. rewrite map_map. simpl.
      apply (NoDup_filtered_prefix
               (fun h : string * list string => Str.ToLowerInvariant (fst h))).
      exact Hnd.
    + intros h Hin. apply Htok. apply in_app_iff. now right.
  - simpl. now apply NoDup_app_remove_r in Hnd.
  - intros h Hin. apply Htok. apply in_app_iff. now left.
Qed.

Lemma relay_drops_Content_Encoding (r : HttpResponseMessage) (e : string * string) :
  In e (relay_fold ContentBlocklist (ContentHeaders r)
          (relay_fold TransportBlocklist (RemoteHeaders r) [])) ->
  Str.eq_ci (fst e) "Content-Encoding" = false.
Proof.
  intro Hin.
  destruct (relay_fold_keys _ _ _ _ Hin) as [Hk | Hk].
  - apply in_map_iff in Hk. destruct Hk as [e' [Heq Hin']]. rewrite <- Heq.
    destruct (relay_fold_keys _ _ _ _ Hin') as [[] | Hk'].
    apply (regex_alternatives_miss TransportBlocklist); [|assumption].
    simpl. tauto.
  - apply (regex_alternatives_miss ContentBlocklist); [|assumption].
    simpl. tauto.
Qed.

End HeaderFacts.

(** C5.  When the outbound GET is answered, the local response carries
    no header named Content-Encoding, its Content-Length is the number
    of bytes of the decompressed body and its body is that body; and,
    the remote header names being distinct tokens, its headers are
    exactly the response headers not on the transport blocklist
    followed by the content headers not on the content blocklist, each
    with its values joined. *)
Theorem proxied_headers_relayed
  (P : Platform) (w : World) (rootFull RemoteOrigin : string)
  (req : HttpListenerRequest) (localFull : string) (response : HttpResponseMessage) :
  GetFullPath P (localPath P rootFull (AbsolutePath req)) = Returned localFull ->
  Str.StartsWith_OrdinalIgnoreCase localFull rootFull = true ->
  Test_Path_Leaf w localFull = false ->
  GetAsync w (remoteUrl RemoteOrigin (RawUrl req)) = Returned response ->
  let r := Response (snd (Handle P w rootFull RemoteOrigin req new_context)) in
  (forall name value, In (name, value) (Headers r) ->
     Str.eq_ci name "Content-Encoding" = false)
  /\ ContentLength64 r = Z.of_nat (length (Content response))
  /\ OutputStream r = Content response
  /\ (well_formed_headers response ->
      Headers r =
        relayed ["Transfer-Encoding"; "Connection"; "Keep-Alive"; "Content-Encoding";
                 "Content-Length"; "Set-Cookie"] (RemoteHeaders response)
        ++ relayed ["Content-Type"; "Content-Length"; "Content-Encoding"]
                   (ContentHeaders response)).
Proof.
  intros Hfull Hstart Hleaf Hget r. subst r.
  rewrite (Handle_resolved P w rootFull RemoteOrigin req localFull Hfull).
  rewrite (Dispatch_routed P w rootFull RemoteOrigin req localFull Hfull).
  rewrite Hstart, Hleaf. simpl negb. cbv iota.
  rewrite (Proxy_RemoteRequest_answered P w _ response _ Hget).
  cbn [snd Response Headers ContentLength64 OutputStream].
  split; [|split; [reflexivity | split; [reflexivity|]]].
  - intros name value Hin. exact (relay_drops_Content_Encoding response (name, value) Hin).
  - intro Hwf. exact (relay_both_sets response Hwf).
Qed.

Lemma proxied_headers_witness :
  let r := Response (snd (Handle Posix.platform Posix.w "/srv/public" "https://example.com"
                                 (Posix.request "/missing.js?v=1" "/missing.js")
                                 new_context)) in
  (forall name value, In (name, value) (Headers r) ->
     Str.eq_ci name "Content-Encoding" = false)
  /\ ContentLength64 r = 9%Z
  /\ Headers r = [("Server", "nginx"); ("Cache-Control", "max-age=60, public");
                  ("Content-Language", "en")].
Proof.
  destruct (proxied_headers_relayed Posix.platform Posix.w "/srv/public"
              "https://example.com" (Posix.request "/missing.js?v=1" "/missing.js")
              "/srv/public/missing.js" Posix.not_found eq_refl eq_refl eq_refl eq_refl)
    as (H1 & H2 & _ & H4).
  split; [exact H1|]. split; [exact H2|].
  apply H4. split.
  - repeat constructor; simpl; intuition discriminate.
  - intros h Hin. simpl in Hin.
    repeat (destruct Hin as [<- | Hin]; [reflexivity|]). destruct Hin.
Defined.

(* ================================================================== *)
(** ** The accept loop *)

Lemma accept_loop_serves_all (P : Platform) (rootFull RemoteOrigin : string)
  (incoming : list (World * HttpListenerRequest)) :
  accept_loop P rootFull RemoteOrigin incoming =
  (map (fun c => snd (Handle P (fst c) rootFull RemoteOrigin (snd c) new_context)) incoming,
   Waiting).
Proof.
  induction incoming as [|[w req] later IH]; simpl; [reflexivity|].
  pose proof (Handle_returns P w rootFull RemoteOrigin req) as H.
  destruct (Handle P w rootFull RemoteOrigin req new_context) as [[[]|e] s];
    [|discriminate H].
  rewrite IH. reflexivity.
Qed.


(** C9.  Two successive requests for the same path, the file being an
    existing regular file that reads as the same bytes at both times,
    get the same response, field by field and byte by byte, and its
    headers are the three cache-disabling headers. *)
Theorem repeated_local_request_identical
  (P : Platform) (w0 w1 w2 : World) (Port : Z) (Root RemoteOrigin : string)
  (req1 req2 : HttpListenerRequest) (rootFull localFull : string) (bytes : list byte) :
  GetFullPath P Root = Returned rootFull ->
  Test_Path w0 rootFull = true ->
  AbsolutePath req1 = AbsolutePath req2 ->
  GetFullPath P (localPath P rootFull (AbsolutePath req1)) = Returned localFull ->
  Str.StartsWith_OrdinalIgnoreCase localFull rootFull = true ->
  Test_Path_Leaf w1 localFull = true ->
  Test_Path_Leaf w2 localFull = true ->
  ReadAllBytes w1 localFull = Returned bytes ->
  ReadAllBytes w2 localFull = Returned bytes ->
  exists r,
    map Response
        (Exchanges (Start_StaticServer P w0 Port Root RemoteOrigin [(w1, req1); (w2, req2)]))
    = [r; r]
    /\ OutputStream r = bytes
    /\ Headers r = [ ("Cache-Control", "no-cache, no-store, must-revalidate");
                     ("Pragma", "no-cache");
                     ("Expires", "0") ].
Proof.
  intros Hroot Htest Hsame Hfull Hstart Hleaf1 Hleaf2 Hread1 Hread2.
  assert (Hfull2 : GetFullPath P (localPath P rootFull (AbsolutePath req2)) = Returned localFull)
    by now rewrite <- Hsame.
  unfold Start_StaticServer. rewrite Hroot, Htest. simpl negb. cbv iota.
  rewrite accept_loop_serves_all. simpl.
  rewrite (Handle_resolved P w1 rootFull RemoteOrigin req1 localFull Hfull).
  rewrite (Handle_resolved P w2 rootFull RemoteOrigin req2 localFull Hfull2).
  rewrite (Dispatch_routed P w1 rootFull RemoteOrigin req1 localFull Hfull).
  rewrite (Dispatch_routed P w2 rootFull RemoteOrigin req2 localFull Hfull2).
  rewrite Hstart, Hleaf1, Hleaf2. simpl negb. cbv iota.
  rewrite (Send_LocalFile_read P w1 localFull bytes _ Hread1).
  rewrite (Send_LocalFile_read P w2 localFull bytes _ Hread2).
  simpl. eexists. split; [reflexivity|]. split; reflexivity.
Qed.

Lemma repeated_local_request_witness :
  exists r,
    map Response
        (Exchanges (Start_StaticServer Posix.platform Posix.w 8080 "/srv/public"
                      "https://example.com"
                      [(Posix.w, Posix.request "/" "/");
                       (Posix.w, Posix.request "/?again" "/")]))
    = [r; r]
    /\ OutputStream r = Posix.html_A
    /\ Headers r = [ ("Cache-Control", "no-cache, no-store, must-revalidate");
                     ("Pragma", "no-cache");
                     ("Expires", "0") ].
Proof.
  exact (repeated_local_request_identical Posix.platform Posix.w Posix.w Posix.w 8080
           "/srv/public" "https://example.com"
           (Posix.request "/" "/") (Posix.request "/?again" "/")
           "/srv/public" "/srv/public/index.html" Posix.html_A
           eq_refl eq_refl eq_refl eq_refl eq_refl eq_refl eq_refl eq_refl eq_refl).
Defined.




(* ================================================================== *)
(** ** Remarks on the loop boundary, the start and the prefix test *)

(** The handler of the loop boundary answers 500 after any exception of
    any block that leaves the output stream open, the client being
    there. *)
Lemma catch_all_answers_500 (body : Script unit) (s s' : State) (message : string) :
  body s = (Thrown message, s') ->
  Closed (Response s') = false ->
  ClientConnected (Response s') = true ->
  exists s'',
    try_catch body (fun _ => Send_Text 500 "Internal Server Error") s = (Returned tt, s'')
    /\ StatusCode (Response s'') = 500%Z
    /\ Closed (Response s'') = true.
Proof.
  intros Hbody Hopen Hthere. unfold try_catch. rewrite Hbody.
  rewrite (Send_Text_open 500 "Internal Server Error" s' Hopen Hthere).
  eexists. split; [reflexivity|]. split; reflexivity.
Qed.

(** Besides returning after a served file and after a handled read
    failure, [Send-LocalFile] can end with an exception: on a stream
    that is closed already both the write and the error response
    throw.  The stream is closed then too. *)
Example Send_LocalFile_exceptional_exit :
  Send_LocalFile Posix.platform Posix.w "/srv/public/index.html"
    {| Response := text_response 403 "Forbidden"; Trace := [] |} =
  (Thrown ObjectDisposed,
   {| Response :=
        {| StatusCode := 500;
           ContentType := Some "text/plain; charset=utf-8";
           Headers := NoCacheHeaders;
           ContentLength64 := 21;
           OutputStream := Str.UTF8_GetBytes "Forbidden";
           Closed := true; ClientConnected := true |};
      Trace := [FileRead "/srv/public/index.html";
                Logged Error "Send-LocalFile error: Cannot access a closed Stream."] |}).
Proof. reflexivity. Qed.

(** A missing root is reported once on the console by the entry block,
    and nothing else happens. *)
Example Entry_missing_root :
  Entry Posix.platform Posix.w 8080 "/srv/nothing" "https://example.com"
        [(Posix.w, Posix.request "/" "/")] =
  {| Console := [Logged Error "Root directory not found: /srv/nothing"];
     Exchanges := [];
     Ended := Terminated "Root directory not found: /srv/nothing" |}.
Proof. reflexivity. Qed.


(* ================================================================== *)
(** ** Further properties: extensions and content types *)

Section ExtensionFacts.

Variable P : Platform.

Lemma list_ascii_of_string_app (a b : string) :
  list_ascii_of_string (a ++ b) = list_ascii_of_string a ++ list_ascii_of_string b.
Proof. induction a as [|c a IH]; simpl; [reflexivity | now rewrite IH]. Qed.

Lemma contains_false_In (c : ascii) (s : string) :
  Str.contains c s = false ->
  forall x, In x (list_ascii_of_string s) -> Ascii.eqb x c = false.
Proof.
  induction s as [|a s IH]; simpl; intros H x Hin; [destruct Hin|].
  apply orb_false_iff in H. destruct H as [Ha Hs].
  destruct Hin as [<- | Hin]; [assumption | now apply IH].
Qed.

Lemma contains_dot_lower (s : string) :
  Str.contains dot (Str.ToLowerInvariant s) = Str.contains dot s.
Proof.
  induction s as [|c s IH]; simpl; [reflexivity|]. rewrite IH. f_equal.
  destruct c as [[] [] [] [] [] [] [] []]; reflexivity.
Qed.

(** Characters that are neither a dot nor a separator are passed over
    by the backward scan. *)
Lemma scan_extension_plain (t l acc : list ascii) :
  (forall c, In c t -> Ascii.eqb c dot = false /\ IsDirectorySeparator P c = false) ->
  scan_extension P (rev t ++ l) acc = scan_extension P l (t ++ acc).
Proof.
  revert l acc. induction t as [|a t IH]; intros l acc Hplain; [reflexivity|].
  simpl rev. rewrite <- app_assoc. simpl app.
  rewrite IH by (intros c Hc; apply Hplain; now right).
  destruct (Hplain a (or_introl eq_refl)) as [Hdot Hsep].
  simpl. unfold dot in Hdot. now rewrite Hdot, Hsep.
Qed.

(** Without a dot before it, a separator ends the scan with nothing. *)
Lemma scan_extension_separator (t l acc : list ascii) (sep : ascii) :
  (forall c, In c t -> Ascii.eqb c dot = false) ->
  IsDirectorySeparator P sep = true -> Ascii.eqb sep dot = false ->
  scan_extension P (t ++ sep :: l) acc = [].
Proof.
  intros Hnodot Hsep Hne. revert acc.
  induction t as [|a t IH]; intro acc; simpl.
  - unfold dot in Hne. now rewrite Hne, Hsep.
  - pose proof (Hnodot a (or_introl eq_refl)) as Ha. unfold dot in Ha. rewrite Ha.
    destruct (IsDirectorySeparator P a); [reflexivity|].
    apply IH. intros c Hc. apply Hnodot. now right.
Qed.

Lemma scan_extension_no_dot (l acc : list ascii) :
  (forall c, In c l -> Ascii.eqb c dot = false) ->
  scan_extension P l acc = [].
Proof.
  revert acc. induction l as [|a l IH]; intros acc Hnodot; simpl; [reflexivity|].
  pose proof (Hnodot a (or_introl eq_refl)) as Ha. unfold dot in Ha. rewrite Ha.
  destruct (IsDirectorySeparator P a); [reflexivity|].
  apply IH. intros c Hc. apply Hnodot. now right.
Qed.

Lemma GetExtension_suffix (stem tail : string) :
  tail <> EmptyString ->
  Str.contains dot tail = false ->
  no_separator P tail = true ->
  GetExtension P (stem ++ String dot tail) = String dot tail.
Proof.
  intros Hne Hnodot Hnosep. unfold GetExtension.
  rewrite list_ascii_of_string_app. simpl list_ascii_of_string.
  rewrite rev_app_distr. simpl rev. rewrite <- app_assoc. simpl app.
  rewrite scan_extension_plain.
  - simpl. rewrite app_nil_r.
    destruct tail as [|c tail]; [contradiction|]. simpl.
    now rewrite string_of_list_ascii_of_string.
  - intros c Hc. split.
    + exact (contains_false_In dot tail Hnodot c Hc).
    + unfold no_separator in Hnosep. rewrite forallb_forall in Hnosep.
      apply negb_true_iff. now apply Hnosep.
Qed.

Lemma listed_extension_shape (lt mime : string) :
  In (String dot lt, mime) MimeTable ->
  Str.contains dot lt = false /\ lt <> EmptyString
  /\ table_lookup MimeTable GenericBinary (String dot lt) = mime.
Proof.
  simpl. intro Hin.
  repeat (destruct Hin as [Hin | Hin];
          [injection Hin as <- <-; repeat split; try reflexivity; discriminate |]).
  destruct Hin.
Qed.

End ExtensionFacts.

(** X1.  A path that ends in an extension of the table, written in any
    letter case and after any stem (dots and directories included),
    gets the MIME type the table lists for it. *)
Theorem listed_extension_any_case
  (P : Platform) (stem tail mime : string) :
  In (Str.ToLowerInvariant (String dot tail), mime) MimeTable ->
  no_separator P tail = true ->
  Get_ContentType P (stem ++ String dot tail) = mime.
Proof.
  intros Hin Hnosep.
  change (Str.ToLowerInvariant (String dot tail))
    with (String dot (Str.ToLowerInvariant tail)) in Hin.
  destruct (listed_extension_shape _ _ Hin) as (Hnodot & Hne & Hlookup).
  rewrite contains_dot_lower in Hnodot.
  assert (Htail : tail <> EmptyString) by (intros ->; now apply Hne).
  rewrite Get_ContentType_table, (GetExtension_suffix P stem tail Htail Hnodot Hnosep).
  exact Hlookup.
Qed.

Lemma listed_extension_witness :
  Get_ContentType Posix.platform "/srv/public/lib.v2/Logo.final.JpEg" = "image/jpeg".
Proof.
  apply (listed_extension_any_case Posix.platform "/srv/public/lib.v2/Logo.final" "JpEg").
  - simpl. tauto.
  - reflexivity.
Defined.

(** X2.  A non-empty path without any dot, and a path whose part after
    the last directory separator has no dot, get
    application/octet-stream: dots in directory names do not count as
    an extension. *)
Theorem extensionless_is_generic_binary (P : Platform) :
  (forall path, path <> EmptyString -> Str.contains dot path = false ->
     Get_ContentType P path = "application/octet-stream")
  /\ (forall dir name sep,
        IsDirectorySeparator P sep = true -> sep <> dot ->
        Str.contains dot name = false ->
        Get_ContentType P (dir ++ String sep name) = "application/octet-stream").
Proof.
  split.
  - intros path _ Hnodot. unfold Get_ContentType, GetExtension.
    rewrite scan_extension_no_dot; [reflexivity|].
    intros c Hc. apply in_rev in Hc. exact (contains_false_In dot path Hnodot c Hc).
  - intros dir name sep Hsep Hne Hnodot. unfold Get_ContentType, GetExtension.
    rewrite list_ascii_of_string_app. simpl list_ascii_of_string.
    rewrite rev_app_distr. simpl rev. rewrite <- app_assoc. simpl app.
    rewrite scan_extension_separator; [reflexivity | | assumption |].
    + intros c Hc. apply in_rev in Hc. exact (contains_false_In dot name Hnodot c Hc).
    + apply Ascii.eqb_neq. exact Hne.
Qed.

Lemma extensionless_witness :
  Get_ContentType Posix.platform "/srv/public/lib.v2/README" = "application/octet-stream".
Proof.
  apply (proj2 (extensionless_is_generic_binary Posix.platform)
               "/srv/public/lib.v2" "README" "/"%char).
  - reflexivity.
  - discriminate.
  - reflexivity.
Defined.

(* ================================================================== *)
(** ** Further properties: the remote URL *)

Lemma TrimEnd_replicate (c : ascii) (n : nat) :
  Str.TrimEnd c (Str.replicate n c) = EmptyString.
Proof.
  induction n as [|n IH]; simpl; [reflexivity|].
  now rewrite IH, Ascii.eqb_refl.
Qed.

Lemma TrimEnd_append_replicate (c : ascii) (s : string) (n : nat) :
  Str.TrimEnd c (s ++ Str.replicate n c) = Str.TrimEnd c s.
Proof.
  induction s as [|a s IH]; simpl.
  - apply TrimEnd_replicate.
  - now rewrite IH.
Qed.

Lemma TrimEnd_fixed (c : ascii) (s : string) :
  Posix.last_is c s = false -> Str.TrimEnd c s = s.
Proof.
  induction s as [|a s IH]; [reflexivity|].
  destruct s as [|b s].
  - simpl. now intros ->.
  - intro H. change (Posix.last_is c (String a (String b s)))
      with (Posix.last_is c (String b s)) in H.
    change (Str.TrimEnd c (String a (String b s)))
      with (match Str.TrimEnd c (String b s) with
            | EmptyString => if Ascii.eqb a c then EmptyString else String a EmptyString
            | r' => String a r'
            end).
    now rewrite (IH H).
Qed.

(** X3.  Trailing slashes of the remote origin make no difference to
    the URL that is requested, and an origin that does not end in a
    slash is taken as it is: the URL is then the origin followed by
    the raw URL. *)
Theorem origin_trailing_slashes_ignored (RemoteOrigin rawUrl : string) :
  (forall n, remoteUrl (RemoteOrigin ++ Str.replicate n "/"%char) rawUrl
             = remoteUrl RemoteOrigin rawUrl)
  /\ (Posix.last_is "/"%char RemoteOrigin = false ->
      remoteUrl RemoteOrigin rawUrl = (RemoteOrigin ++ rawUrl)%string).
Proof.
  unfold remoteUrl. split.
  - intro n. now rewrite TrimEnd_append_replicate.
  - intro H. now rewrite TrimEnd_fixed.
Qed.

Lemma origin_trailing_slashes_witness :
  remoteUrl "https://example.com" "/a.js?v=1" = "https://example.com/a.js?v=1"
  /\ remoteUrl ("https://example.com" ++ Str.replicate 3 "/"%char) "/a.js?v=1"
     = remoteUrl "https://example.com" "/a.js?v=1".
Proof.
  destruct (origin_trailing_slashes_ignored "https://example.com" "/a.js?v=1") as [H1 H2].
  split; [exact (H2 eq_refl) | exact (H1 3%nat)].
Defined.

(* ================================================================== *)
(** ** Further properties: every way one request can go *)

(** Splits the handling of a request from a new context into its six
    ways: path not normalized, rejected, file served, file unreadable,
    origin answered, origin failed. *)
Ltac route P w rootFull RemoteOrigin req :=
  let localFull := fresh "localFull" in
  let message := fresh "message" in
  let bytes := fresh "bytes" in
  let response := fresh "response" in
  destruct (GetFullPath P (localPath P rootFull (AbsolutePath req)))
    as [localFull|message] eqn:Hfull;
  [ rewrite (Handle_resolved P w rootFull RemoteOrigin req localFull Hfull),
            (Dispatch_routed P w rootFull RemoteOrigin req localFull Hfull);
    destruct (Str.StartsWith_OrdinalIgnoreCase localFull rootFull) eqn:Hunder;
    simpl negb; cbv iota;
    [ destruct (Test_Path_Leaf w localFull) eqn:Hleaf;
      [ destruct (ReadAllBytes w localFull) as [bytes|message] eqn:Hread;
        [ rewrite (Send_LocalFile_read P w localFull bytes _ Hread)
        | rewrite (Send_LocalFile_unreadable P w localFull message _ Hread) ]
      | destruct (GetAsync w (remoteUrl RemoteOrigin (RawUrl req)))
          as [response|message] eqn:Hget;
        [ rewrite (Proxy_RemoteRequest_answered P w _ response _ Hget)
        | rewrite (Proxy_RemoteRequest_failed P w _ message _ Hget) ] ]
    | ]
  | rewrite (Handle_unresolved P w rootFull RemoteOrigin req message Hfull) ].


Lemma assign_header_names (name value : string) (hs : list (string * string)) (x : string) :
  In x (map lower_name (assign_header name value hs)) ->
  In x (map lower_name hs) \/ x = Str.ToLowerInvariant name.
Proof.
  induction hs as [|[k v] hs IH]; simpl.
  - intros [<- | []]. now right.
  - destruct (Str.eq_ci k name); simpl.
    + intros [<- | Hin]; [left; now left | left; now right].
    + intros [<- | Hin]; [left; now left|].
      destruct (IH Hin) as [H | H]; [left; now right | now right].
Qed.

Lemma assign_header_distinct (name value : string) (hs : list (string * string)) :
  NoDup (map lower_name hs) -> NoDup (map lower_name (assign_header name value hs)).
Proof.
  induction hs as [|[k v] hs IH]; simpl; intro Hnd.
  - constructor; [intros [] | constructor].
  - apply NoDup_cons_iff in Hnd. destruct Hnd as [Hnot Hnd].
    destruct (Str.eq_ci k name) eqn:E; simpl.
    + apply NoDup_cons_iff. split; assumption.
    + apply NoDup_cons_iff. split; [|now apply IH].
      intro Hin. destruct (assign_header_names _ _ _ _ Hin) as [H | H].
      * now apply Hnot.
      * unfold lower_name in H. simpl in H. apply eq_ci_iff in H.
        rewrite H in E. discriminate E.
Qed.

Lemma relay_fold_distinct (blocklist : list string) (hs : list (string * list string))
  (hs0 : list (string * string)) :
  NoDup (map lower_name hs0) -> NoDup (map lower_name (relay_fold blocklist hs hs0)).
Proof.
  revert hs0. unfold relay_fold.
  induction hs as [|h hs IH]; simpl; intros hs0 Hnd; [assumption|].
  destruct (Str.regex_alternatives blocklist (fst h)).
  - now apply IH.
  - apply IH. now apply assign_header_distinct.
Qed.

(** X5.  Whatever the remote origin sent, also the same name twice or
    in both header sets or in different letter case, the header
    collection of the response never holds two entries whose names are
    equal ignoring case. *)
Theorem header_names_stay_distinct
  (P : Platform) (w : World) (rootFull RemoteOrigin : string) (req : HttpListenerRequest) :
  NoDup (map lower_name
             (Headers (Response (snd (Handle P w rootFull RemoteOrigin req new_context))))).
Proof.
  route P w rootFull RemoteOrigin req; cbn [snd Response Headers text_response];
    first [ apply relay_fold_distinct, relay_fold_distinct; constructor
          | solve [repeat constructor; simpl; intuition discriminate] ].
Qed.

(** X6.  The only file a request ever makes the server read is its own
    normalized path, and only after that path passed the prefix test
    against the root and was found to be an existing regular file;
    there is then exactly one read. *)
Theorem file_reads_are_confined
  (P : Platform) (w : World) (rootFull RemoteOrigin : string) (req : HttpListenerRequest)
  (path : string) :
  In (FileRead path) (Trace (snd (Handle P w rootFull RemoteOrigin req new_context))) ->
  GetFullPath P (localPath P rootFull (AbsolutePath req)) = Returned path
  /\ Str.StartsWith_OrdinalIgnoreCase path rootFull = true
  /\ Test_Path_Leaf w path = true
  /\ reads (Trace (snd (Handle P w rootFull RemoteOrigin req new_context))) = 1%nat.
Proof.
  route P w rootFull RemoteOrigin req; intro Hin; simpl in Hin;
    repeat (destruct Hin as [Hin | Hin];
            [ try discriminate Hin;
              try (injection Hin as <-; repeat split; assumption || reflexivity) |]);
    try destruct Hin.
Qed.

Lemma file_reads_witness :
  GetFullPath Posix.platform (localPath Posix.platform "/srv/public" "/locked.css")
    = Returned "/srv/public/locked.css"
  /\ Str.StartsWith_OrdinalIgnoreCase "/srv/public/locked.css" "/srv/public" = true
  /\ Test_Path_Leaf Posix.w "/srv/public/locked.css" = true
  /\ reads (Trace (snd (Handle Posix.platform Posix.w "/srv/public" "https://example.com"
                               (Posix.request "/locked.css" "/locked.css") new_context)))
     = 1%nat.
Proof.
  apply (file_reads_are_confined Posix.platform Posix.w "/srv/public" "https://example.com"
           (Posix.request "/locked.css" "/locked.css") "/srv/public/locked.css").
  simpl. tauto.
Defined.

(** X7.  The only outbound request a request ever causes goes to the
    remote origin, trailing slashes trimmed, followed by its own raw
    URL, and only after its normalized path passed the prefix test and
    was found not to be an existing regular file; there is then
    exactly one outbound request. *)
Theorem outbound_requests_are_confined
  (P : Platform) (w : World) (rootFull RemoteOrigin : string) (req : HttpListenerRequest)
  (url : string) :
  In (RemoteGet url) (Trace (snd (Handle P w rootFull RemoteOrigin req new_context))) ->
  url = (Str.TrimEnd "/"%char RemoteOrigin ++ RawUrl req)%string
  /\ (exists localFull,
        GetFullPath P (localPath P rootFull (AbsolutePath req)) = Returned localFull
        /\ Str.StartsWith_OrdinalIgnoreCase localFull rootFull = true
        /\ Test_Path_Leaf w localFull = false)
  /\ gets (Trace (snd (Handle P w rootFull RemoteOrigin req new_context))) = 1%nat.
Proof.
  route P w rootFull RemoteOrigin req; intro Hin; simpl in Hin;
    repeat (destruct Hin as [Hin | Hin];
            [ try discriminate Hin;
              try (injection Hin as <-; split; [reflexivity|]; split; [|reflexivity];
                   eexists; repeat split; eassumption) |]);
    try destruct Hin.
Qed.

Lemma outbound_requests_witness :
  "https://example.com/nope" = (Str.TrimEnd "/"%char "https://example.com//" ++ "/nope")%string
  /\ gets (Trace (snd (Handle Posix.platform Posix.w "/srv/public" "https://example.com//"
                              (Posix.request "/nope" "/nope") new_context))) = 1%nat.
Proof.
  destruct (outbound_requests_are_confined Posix.platform Posix.w "/srv/public"
              "https://example.com//" (Posix.request "/nope" "/nope")
              "https://example.com/nope") as (H1 & _ & H3).
  - simpl. tauto.
  - exact (conj H1 H3).
Defined.

Lemma StartsWith_append (a b rest : string) :
  Str.eq_ci a b = true -> Str.StartsWith_OrdinalIgnoreCase (a ++ rest) b = true.
Proof.
  revert b. induction a as [|x a IH]; intros [|y b]; simpl; try discriminate.
  - intros _. now destruct rest.
  - intro H. apply andb_true_iff in H. destruct H as [Hc Hs].
    now rewrite Hc, (IH b Hs).
Qed.

(** X8.  A request whose normalized path is the root, written in any
    letter case, followed by anything, is never turned away: the
    first thing its handling does is test that path for an existing
    regular file. *)
Theorem path_under_root_is_looked_up
  (P : Platform) (w : World) (rootFull RemoteOrigin : string) (req : HttpListenerRequest)
  (root' rest : string) :
  GetFullPath P (localPath P rootFull (AbsolutePath req)) = Returned (root' ++ rest)%string ->
  Str.eq_ci root' rootFull = true ->
  rejected (snd (Handle P w rootFull RemoteOrigin req new_context)) = false
  /\ exists later,
       Trace (snd (Handle P w rootFull RemoteOrigin req new_context))
       = LeafTested (root' ++ rest)%string :: later.
Proof.
  intros Hfull Hci.
  rewrite (Handle_resolved P w rootFull RemoteOrigin req _ Hfull),
          (Dispatch_routed P w rootFull RemoteOrigin req _ Hfull).
  rewrite (StartsWith_append root' rootFull rest Hci). simpl negb. cbv iota.
  destruct (Test_Path_Leaf w (root' ++ rest)%string).
  - destruct (ReadAllBytes w (root' ++ rest)%string) as [bytes|message] eqn:E.
    + rewrite (Send_LocalFile_read P w _ bytes _ E).
      split; [reflexivity | eexists; reflexivity].
    + rewrite (Send_LocalFile_unreadable P w _ message _ E).
      split; [reflexivity | eexists; reflexivity].
  - destruct (GetAsync w (remoteUrl RemoteOrigin (RawUrl req))) as [response|message] eqn:E.
    + rewrite (Proxy_RemoteRequest_answered P w _ response _ E).
      split; [apply andb_false_r | eexists; reflexivity].
    + rewrite (Proxy_RemoteRequest_failed P w _ message _ E).
      split; [reflexivity | eexists; reflexivity].
Qed.

Lemma path_under_root_witness :
  rejected (snd (Handle Posix.platform Posix.w "/SRV/Public" "https://example.com"
                        (Posix.request "/index.html" "/index.html") new_context)) = false
  /\ exists later,
       Trace (snd (Handle Posix.platform Posix.w "/SRV/Public" "https://example.com"
                          (Posix.request "/index.html" "/index.html") new_context))
       = LeafTested "/SRV/Public/index.html" :: later.
Proof.
  exact (path_under_root_is_looked_up Posix.platform Posix.w "/SRV/Public"
           "https://example.com" (Posix.request "/index.html" "/index.html")
           "/SRV/Public" "/index.html" eq_refl eq_refl).
Defined.

(** X9.  The status of a response is 200, 403, 500 or 502, or it is the
    status the remote origin answered the outbound request with. *)
Theorem status_is_local_or_remote
  (P : Platform) (w : World) (rootFull RemoteOrigin : string) (req : HttpListenerRequest) :
  let status := StatusCode (Response (snd (Handle P w rootFull RemoteOrigin req new_context))) in
  status = 200%Z \/ status = 403%Z \/ status = 500%Z \/ status = 502%Z
  \/ exists response,
       GetAsync w (remoteUrl RemoteOrigin (RawUrl req)) = Returned response
       /\ status = RemoteStatusCode response.
Proof.
  intro status. subst status.
  route P w rootFull RemoteOrigin req; cbn [snd Response StatusCode text_response]; auto.
  right. right. right. right. eexists. split; reflexivity.
Qed.


Lemma relay_drops_common (lit : string) (r : HttpResponseMessage) (e : string * string) :
  In lit TransportBlocklist -> In lit ContentBlocklist ->
  In e (relay_fold ContentBlocklist (ContentHeaders r)
          (relay_fold TransportBlocklist (RemoteHeaders r) [])) ->
  Str.eq_ci (fst e) lit = false.
Proof.
  intros Ht Hc Hin.
  destruct (relay_fold_keys _ _ _ _ Hin) as [Hk | Hk].
  - apply in_map_iff in Hk. destruct Hk as [e' [Heq Hin']]. rewrite <- Heq.
    destruct (relay_fold_keys _ _ _ _ Hin') as [[] | Hk'].
    now apply (regex_alternatives_miss TransportBlocklist).
  - now apply (regex_alternatives_miss ContentBlocklist).
Qed.

(** X11.  Whatever the request, the world and the headers the remote
    origin sent, in either header set and in any letter case, no entry
    of the response's header collection is named Content-Length or
    Content-Encoding: the only length a client is given is the one
    computed from the bytes written. *)
Theorem length_and_encoding_never_relayed
  (P : Platform) (w : World) (rootFull RemoteOrigin : string) (req : HttpListenerRequest)
  (name value : string) :
  In (name, value)
     (Headers (Response (snd (Handle P w rootFull RemoteOrigin req new_context)))) ->
  Str.eq_ci name "Content-Length" = false /\ Str.eq_ci name "Content-Encoding" = false.
Proof.
  route P w rootFull RemoteOrigin req; cbn [snd Response Headers text_response];
    intro Hin.
  - simpl in Hin. destruct Hin as [Hin | [Hin | [Hin | []]]];
      injection Hin as <- _; split; reflexivity.
  - destruct Hin.
  - split.
    + apply (relay_drops_common "Content-Length" response (name, value));
        [simpl; tauto | simpl; tauto | exact Hin].
    + apply (relay_drops_common "Content-Encoding" response (name, value));
        [simpl; tauto | simpl; tauto | exact Hin].
  - destruct Hin.
  - destruct Hin.
  - destruct Hin.
Qed.

Lemma length_and_encoding_witness :
  Str.eq_ci "Content-Language" "Content-Length" = false
  /\ Str.eq_ci "Content-Language" "Content-Encoding" = false.
Proof.
  apply (length_and_encoding_never_relayed Posix.platform Posix.w "/srv/public"
           "https://example.com" (Posix.request "/missing.js?v=1" "/missing.js")
           "Content-Language" "en").
  simpl. tauto.
Defined.

(* ================================================================== *)
(** ** Clients that go away, and the listener *)

Section ClientFacts.

Variable P : Platform.

Lemma Send_Text_gone (code : Z) (text : string) (s : State) :
  Closed (Response s) = false ->
  ClientConnected (Response s) = false ->
  exists s',
    Send_Text code text s = (Thrown ClientGone, s')
    /\ Closed (Response s') = false
    /\ ClientConnected (Response s') = false
    /\ OutputStream (Response s') = OutputStream (Response s)
    /\ Trace s' = Trace s.
Proof.
  destruct s as [[sc ct hs cl out closed connected] tr]. simpl. intros -> ->.
  eexists. split; [reflexivity|]. repeat split.
Qed.

Lemma Send_Text_on_closed (code : Z) (text : string) (s : State) :
  Closed (Response s) = true ->
  exists s',
    Send_Text code text s = (Thrown ObjectDisposed, s')
    /\ OutputStream (Response s') = OutputStream (Response s)
    /\ Trace s' = Trace s.
Proof.
  destruct s as [[sc ct hs cl out closed connected] tr]. simpl. intros ->.
  eexists. split; [reflexivity|]. split; reflexivity.
Qed.

(** With the client gone both responders end with an exception, the
    stream closed by [finally] and nothing written. *)
Lemma Send_LocalFile_gone (w : World) (FilePath : string) (tr : list Event) :
  exists s',
    Send_LocalFile P w FilePath {| Response := gone_response; Trace := tr |}
    = (Thrown ClientGone, s')
    /\ Closed (Response s') = true
    /\ OutputStream (Response s') = [].
Proof.
  unfold Send_LocalFile, try_catch_finally, try_finally, try_catch, bind, call_ReadAllBytes.
  simpl. destruct (ReadAllBytes w FilePath) as [bytes|message]; simpl;
    eexists; split; try reflexivity; split; reflexivity.
Qed.

Lemma Proxy_RemoteRequest_gone (w : World) (RemoteUrl : string) (tr : list Event) :
  exists s',
    Proxy_RemoteRequest P w RemoteUrl {| Response := gone_response; Trace := tr |}
    = (Thrown ClientGone, s')
    /\ Closed (Response s') = true
    /\ OutputStream (Response s') = [].
Proof.
  unfold Proxy_RemoteRequest, try_catch_finally, try_finally, try_catch, call_GetAsync.
  unfold bind at 1. simpl.
  destruct (GetAsync w RemoteUrl) as [response|message].
  - unfold bind at 1. simpl. unfold bind at 1.
    destruct (MediaType response) as [contentType|]; simpl;
      unfold bind at 1; rewrite foreach_relay; simpl;
      unfold bind at 1; rewrite foreach_relay; simpl;
      eexists; split; try reflexivity; split; reflexivity.
  - simpl. eexists. split; [reflexivity|]. split; reflexivity.
Qed.

(** With the client gone an iteration ends with an exception whatever
    the route, and nothing has been written. *)
Lemma Handle_gone (w : World) (rootFull RemoteOrigin : string) (req : HttpListenerRequest) :
  exists e s,
    Handle P w rootFull RemoteOrigin req gone_context = (Thrown e, s)
    /\ OutputStream (Response s) = [].
Proof.
  unfold Handle, try_catch, Dispatch, bind, call, call_Test_Path_Leaf.
  destruct (GetFullPath P (localPath P rootFull (AbsolutePath req))) as [localFull|e].
  - destruct (Str.StartsWith_OrdinalIgnoreCase localFull rootFull); simpl negb; cbv iota.
    + simpl. destruct (Test_Path_Leaf w localFull).
      * destruct (Send_LocalFile_gone w localFull [LeafTested localFull])
          as (s' & E & Hclosed & Hout).
        fold gone_response. rewrite E.
        destruct (Send_Text_on_closed 500 "Internal Server Error" s' Hclosed)
          as (s'' & E' & Hout' & _).
        rewrite E'. exists ObjectDisposed, s''. split; [reflexivity | congruence].
      * destruct (Proxy_RemoteRequest_gone w (remoteUrl RemoteOrigin (RawUrl req))
                    [LeafTested localFull]) as (s' & E & Hclosed & Hout).
        fold gone_response. rewrite E.
        destruct (Send_Text_on_closed 500 "Internal Server Error" s' Hclosed)
          as (s'' & E' & Hout' & _).
        rewrite E'. exists ObjectDisposed, s''. split; [reflexivity | congruence].
    + simpl. eexists. eexists. split; reflexivity.
  - simpl. eexists. eexists. split; reflexivity.
Qed.

Lemma Listener_accept_loop_connected (rootFull RemoteOrigin : string)
  (incoming : list Connection) :
  forallb ConnClient incoming = true ->
  Listener.accept_loop P rootFull RemoteOrigin (map Returned incoming) =
  (map (fun c => snd (Handle P (ConnWorld c) rootFull RemoteOrigin (ConnRequest c) new_context))
       incoming,
   Waiting).
Proof.
  induction incoming as [|c later IH]; simpl; intro Hall; [reflexivity|].
  apply andb_true_iff in Hall. destruct Hall as [Hc Hlater].
  rewrite Hc. simpl context.
  pose proof (Handle_returns P (ConnWorld c) rootFull RemoteOrigin (ConnRequest c)) as H.
  destruct (Handle P (ConnWorld c) rootFull RemoteOrigin (ConnRequest c) new_context)
    as [[[]|e] s]; [|discriminate H].
  now rewrite (IH Hlater).
Qed.

(** With a listener that starts, connections that all arrive and
    clients that all stay, the start of the listener is
    [Start_StaticServer]. *)
Lemma Listener_start_with_clients (w0 : World) (Port : Z) (Root RemoteOrigin : string)
  (incoming : list (World * HttpListenerRequest)) :
  Listen w0 ("http://localhost:" ++ Str.of_int Port ++ "/") = Returned tt ->
  Listener.Start_StaticServer P w0 Port Root RemoteOrigin
    (map (fun c => Returned {| ConnWorld := fst c; ConnRequest := snd c; ConnClient := true |})
         incoming)
  = Start_StaticServer P w0 Port Root RemoteOrigin incoming.
Proof.
  intro Hlisten. unfold Listener.Start_StaticServer, Start_StaticServer.
  destruct (GetFullPath P Root) as [rootFull|e]; [|reflexivity].
  destruct (negb (Test_Path w0 rootFull)); [reflexivity|].
  rewrite Hlisten, accept_loop_serves_all.
  rewrite <- (map_map (fun c => {| ConnWorld := fst c; ConnRequest := snd c;
                                   ConnClient := true |}) Returned).
  rewrite Listener_accept_loop_connected.
  - now rewrite map_map.
  - apply forallb_forall. intros c Hin. apply in_map_iff in Hin.
    destruct Hin as [x [<- _]]. reflexivity.
Qed.

End ClientFacts.




(** X4.  For every request and every state of file system and network:
    when the client stays connected, one iteration of the accept loop
    returns, leaves the output stream closed, and the Content-Length
    of the response is the number of bytes written to the stream; when
    the client has gone before the first write, the iteration ends
    with an exception and no byte is written. *)
Theorem response_complete_or_client_gone
  (P : Platform) (w : World) (rootFull RemoteOrigin : string) (req : HttpListenerRequest) :
  (fst (Handle P w rootFull RemoteOrigin req (context true)) = Returned tt
   /\ Closed (Response (snd (Handle P w rootFull RemoteOrigin req (context true)))) = true
   /\ ContentLength64 (Response (snd (Handle P w rootFull RemoteOrigin req (context true))))
      = Z.of_nat (length (OutputStream
                            (Response (snd (Handle P w rootFull RemoteOrigin req
                                                   (context true)))))))
  /\ (exists e, fst (Handle P w rootFull RemoteOrigin req (context false)) = Thrown e)
  /\ OutputStream (Response (snd (Handle P w rootFull RemoteOrigin req (context false)))) = [].
Proof.
  simpl context. split.
  - route P w rootFull RemoteOrigin req; repeat split.
  - destruct (Handle_gone P w rootFull RemoteOrigin req) as (e & s & E & Hout).
    rewrite E. split; [exists e; reflexivity | exact Hout].
Qed.

(** X12.  A connection whose client has gone before its response is
    written ends the accept loop, whatever its request and the world:
    the exception is thrown again by the handler of the loop boundary,
    nothing is written, and the connections after it are not
    accepted. *)
Theorem client_gone_stops_the_server
  (P : Platform) (rootFull RemoteOrigin : string)
  (c : Connection) (later : list (Outcome Connection)) :
  ConnClient c = false ->
  exists e s,
    Listener.accept_loop P rootFull RemoteOrigin (Returned c :: later) = ([s], Terminated e)
    /\ OutputStream (Response s) = [].
Proof.
  intro Hgone. simpl. rewrite Hgone. simpl context.
  destruct (Handle_gone P (ConnWorld c) rootFull RemoteOrigin (ConnRequest c))
    as (e & s & E & Hout).
  rewrite E. exists e, s. split; [reflexivity | exact Hout].
Qed.

Lemma client_gone_witness :
  exists e s,
    Listener.accept_loop Posix.platform "/srv/public" "https://example.com"
      [Returned (Scenes.connection false "/" "/");
       Returned (Scenes.connection true "/" "/")] = ([s], Terminated e)
    /\ OutputStream (Response s) = [].
Proof.
  exact (client_gone_stops_the_server Posix.platform "/srv/public" "https://example.com"
           (Scenes.connection false "/" "/")
           [Returned (Scenes.connection true "/" "/")] eq_refl).
Defined.

(** The console of a whole run: the four lines of the start, then the
    line logged while the second request is handled. *)
Example Listener_console :
  Listener.Entry Posix.platform Posix.w 8080 "/srv/public" "https://example.com"
    [Returned (Scenes.connection true "/" "/");
     Returned (Scenes.connection true "/nope" "/nope")] =
  [ Logged Info "Server listening at http://localhost:8080/";
    HostLine "http://localhost:8080/";
    Logged Info "Root: /srv/public";
    Logged Info "Remote origin (fallback proxy): https://example.com";
    Logged Error "Proxy error: https://example.com/nope => No such host is known." ].
Proof. reflexivity. Qed.

(** A port that is taken leaves one error line and nothing else. *)
Example Listener_console_busy :
  Listener.Entry Posix.platform Scenes.busy 8080 "/srv/public" "https://example.com"
    [Returned (Scenes.connection true "/" "/")] =
  [ Logged Error
      "Failed to listen on prefix because it conflicts with an existing registration." ].
Proof. reflexivity. Qed.
